(** * devsecops-flask-app: validation, sanitisation and the auth routes

    A shallow embedding of [app/utils.py] and [app/routes.py].

    Conventions of the model.
    - A Python [str] is a [string]: a sequence of characters with code points
      U+0000 .. U+00FF.  Inside that range [\d] is exactly [0-9] and
      [str.isspace] is the set listed in [PyStr.isspace].  The password
      policy is also embedded on a [str] of any code points, in [Unicode],
      where [\d] matches the decimal digits of every script.
    - A value decoded from a JSON body is a [pyval] (null, boolean, integer,
      string); the body itself is a [pybody] (a scalar, a list of scalars or
      a dict with scalar values).  Floats and nested containers are outside
      the model.
    - A raised exception is a value of [exn]; a route's [try/except] is
      [try_except].  A [Request] says what [request.get_json()] does: a
      route named [_request] takes the request, the route of the plain name
      takes the document that [get_json()] has returned.
    - The database, the password hasher and the token issuer are not part of
      the repository sources; they are Section variables of [Routes]. *)

From Stdlib Require Import Bool Arith NArith ZArith Lia List.
From Stdlib Require Import Strings.Ascii Strings.String Numbers.DecimalString.
Import ListNotations.
Local Open Scope string_scope.
Local Open Scope bool_scope.

(* ===================================================================== *)
(** ** Python strings *)
(* ===================================================================== *)

Module PyStr.

(** Code point of a character. *)
Definition ord (c : ascii) : N := N_of_ascii c.

(** [lo <= c <= hi] on code points: a range [lo-hi] of a character class. *)
Definition in_range (lo hi c : ascii) : bool :=
  (ord lo <=? ord c)%N && (ord c <=? ord hi)%N.

(** Membership of a character in the characters of a string. *)
Fixpoint mem (c : ascii) (s : string) : bool :=
  match s with
  | EmptyString => false
  | String d s' => Ascii.eqb c d || mem c s'
  end.

(** [any p s]: some character of [s] satisfies [p]. *)
Fixpoint any (p : ascii -> bool) (s : string) : bool :=
  match s with
  | EmptyString => false
  | String c s' => p c || any p s'
  end.

(** [all p s]: every character of [s] satisfies [p]. *)
Fixpoint all (p : ascii -> bool) (s : string) : bool :=
  match s with
  | EmptyString => true
  | String c s' => p c && all p s'
  end.

Definition is_empty (s : string) : bool :=
  match s with EmptyString => true | _ => false end.

(** The double quote and the line feed, by code point. *)
Definition dquote : ascii := "034"%char.
Definition newline : ascii := "010"%char.

(** [str.isspace] for one character, on U+0000 .. U+00FF:
    TAB LF VT FF CR, FS GS RS US, SPACE, NEL and NBSP. *)
Definition isspace (c : ascii) : bool :=
  let n := ord c in
  ((9 <=? n) && (n <=? 13) || (28 <=? n) && (n <=? 32)
   || (n =? 133) || (n =? 160))%N.

(** [s.lstrip()] *)
Fixpoint lstrip (s : string) : string :=
  match s with
  | EmptyString => EmptyString
  | String c s' => if isspace c then lstrip s' else s
  end.

(** [s.rstrip()] *)
Fixpoint rstrip (s : string) : string :=
  match s with
  | EmptyString => EmptyString
  | String c s' =>
      let r := rstrip s' in
      if is_empty r && isspace c then EmptyString else String c r
  end.

(** [s.strip()] *)
Definition strip (s : string) : string := rstrip (lstrip s).

(** [new.join(s)] preceded by [new]: the result of [s.replace("", new)]. *)
Fixpoint interleave (new s : string) : string :=
  match s with
  | EmptyString => new
  | String c s' => new ++ String c (interleave new s')
  end.

(** Left-to-right scan of [s.replace(old, new)] for a non-empty [old].
    [skip] counts the characters of an occurrence of [old] that has just been
    replaced and is still to be passed over. *)
Fixpoint replace_scan (old new : string) (skip : nat) (s : string) : string :=
  match s with
  | EmptyString => EmptyString
  | String c s' =>
      match skip with
      | S k => replace_scan old new k s'
      | O =>
          if prefix old s
          then new ++ replace_scan old new (length old - 1) s'
          else String c (replace_scan old new 0 s')
      end
  end.

(** [s.replace(old, new)]: every non-overlapping occurrence, leftmost first. *)
Definition replace (old new s : string) : string :=
  if is_empty old then interleave new s else replace_scan old new 0 s.

(** Scan of [s.split(sep)] for a non-empty [sep]; [cur] is the piece being
    collected. *)
Fixpoint split_scan (sep : string) (skip : nat) (cur s : string) : list string :=
  match s with
  | EmptyString => [cur]
  | String c s' =>
      match skip with
      | S k => split_scan sep k cur s'
      | O =>
          if prefix sep s
          then cur :: split_scan sep (length sep - 1) EmptyString s'
          else split_scan sep 0 (cur ++ String c EmptyString) s'
      end
  end.

(** [s.split(sep)]; Python raises [ValueError] on an empty separator. *)
Definition split (sep s : string) : option (list string) :=
  if is_empty sep then None else Some (split_scan sep 0 EmptyString s).

(** [sub in s] for strings. *)
Fixpoint contains (sub s : string) : bool :=
  prefix sub s ||
  match s with
  | EmptyString => false
  | String _ s' => contains sub s'
  end.

(** [str(z)] for an integer. *)
Definition of_Z (z : Z) : string := NilZero.string_of_int (Z.to_int z).

(** [s.lower()] on U+0000 .. U+00FF: the letters A-Z and the capitals
    U+00C0 .. U+00DE (U+00D7, the multiplication sign, is no letter) move up
    by 32. *)
Definition lower_char (c : ascii) : ascii :=
  let n := ord c in
  if ((65 <=? n) && (n <=? 90)
      || (192 <=? n) && (n <=? 222) && negb (n =? 215))%N
  then ascii_of_N (n + 32)
  else c.

Fixpoint lower (s : string) : string :=
  match s with
  | EmptyString => EmptyString
  | String c s' => String (lower_char c) (lower s')
  end.

(** [s.count(c)] for one character. *)
Fixpoint count (c : ascii) (s : string) : nat :=
  match s with
  | EmptyString => 0
  | String d s' => (if Ascii.eqb c d then 1 else 0) + count c s'
  end.

(** [s.isascii()] *)
Definition isascii (s : string) : bool := all (fun c => (ord c <? 128)%N) s.

(** [bytes.hex()]: two lower-case hexadecimal digits for each byte. *)
Definition hex_digit (n : N) : ascii :=
  match get (N.to_nat n) "0123456789abcdef" with
  | Some c => c
  | None => "0"%char
  end.

Fixpoint hex (bytes : list ascii) : string :=
  match bytes with
  | [] => EmptyString
  | b :: rest =>
      String (hex_digit (ord b / 16)) (String (hex_digit (ord b mod 16)) (hex rest))
  end.

End PyStr.

(* ===================================================================== *)
(** ** The part of [re] the patterns of [utils.py] use *)
(* ===================================================================== *)

Module Re.

(** Pattern syntax: character classes, concatenation, alternation, [*], and
    the zero-width assertions [^] and [$] (no flags). *)
Inductive regex : Type :=
| Void
| Eps
| Cls (p : ascii -> bool)
| Cat (r1 r2 : regex)
| Alt (r1 r2 : regex)
| Star (r : regex)
| Bol
| Eol.

(** [r+] *)
Definition Plus (r : regex) : regex := Cat r (Star r).

(** [r{n,}] *)
Fixpoint AtLeast (n : nat) (r : regex) : regex :=
  match n with
  | O => Star r
  | S k => Cat r (AtLeast k r)
  end.

(** [$] without [re.MULTILINE]: at the end of the string, or just before a
    line feed that is the last character of the string. *)
Definition at_eol (rest : string) : bool :=
  match rest with
  | EmptyString => true
  | String c EmptyString => Ascii.eqb c PyStr.newline
  | _ => false
  end.

(** [nullable start rest r]: [r] matches the empty string at a position
    where [start] tells whether it is the beginning of the string and [rest]
    is the input from that position on. *)
Fixpoint nullable (start : bool) (rest : string) (r : regex) : bool :=
  match r with
  | Void => false
  | Eps => true
  | Cls _ => false
  | Cat r1 r2 => nullable start rest r1 && nullable start rest r2
  | Alt r1 r2 => nullable start rest r1 || nullable start rest r2
  | Star _ => true
  | Bol => start
  | Eol => at_eol rest
  end.

(** [deriv start rest c r]: what remains of [r] after it consumes [c], the
    first character of [rest]. *)
Fixpoint deriv (start : bool) (rest : string) (c : ascii) (r : regex) : regex :=
  match r with
  | Void | Eps | Bol | Eol => Void
  | Cls p => if p c then Eps else Void
  | Cat r1 r2 =>
      Alt (Cat (deriv start rest c r1) r2)
          (if nullable start rest r1 then deriv start rest c r2 else Void)
  | Alt r1 r2 => Alt (deriv start rest c r1) (deriv start rest c r2)
  | Star r1 => Cat (deriv start rest c r1) (Star r1)
  end.

(** [match_at start r s]: some prefix of [s] matches [r]. *)
Fixpoint match_at (start : bool) (r : regex) (s : string) : bool :=
  nullable start s r ||
  match s with
  | EmptyString => false
  | String c s' => match_at false (deriv start s c r) s'
  end.

(** [bool(re.match(r, s))] *)
Definition re_match (r : regex) (s : string) : bool := match_at true r s.

Fixpoint search_from (start : bool) (r : regex) (s : string) : bool :=
  match_at start r s ||
  match s with
  | EmptyString => false
  | String _ s' => search_from false r s'
  end.

(** [bool(re.search(r, s))] *)
Definition re_search (r : regex) (s : string) : bool := search_from true r s.

(** A literal character. *)
Definition Chr (c : ascii) : regex := Cls (Ascii.eqb c).

(** What the patterns mean.  [matches b s r b' s']: read from the position
    with input [s] left ([b] tells whether it is the start of the string),
    [r] matches and stops at the position with input [s'] left. *)
Inductive matches : bool -> string -> regex -> bool -> string -> Prop :=
| MEps b s : matches b s Eps b s
| MCls b p c s : p c = true -> matches b (String c s) (Cls p) false s
| MCat b s r1 r2 b1 s1 b2 s2 :
    matches b s r1 b1 s1 -> matches b1 s1 r2 b2 s2 ->
    matches b s (Cat r1 r2) b2 s2
| MAltL b s r1 r2 b' s' : matches b s r1 b' s' -> matches b s (Alt r1 r2) b' s'
| MAltR b s r1 r2 b' s' : matches b s r2 b' s' -> matches b s (Alt r1 r2) b' s'
| MStarNil b s r : matches b s (Star r) b s
| MStarCons b s r b1 s1 b2 s2 :
    matches b s r b1 s1 -> matches b1 s1 (Star r) b2 s2 ->
    matches b s (Star r) b2 s2
| MBol s : matches true s Bol true s
| MEol b s : at_eol s = true -> matches b s Eol b s.

(** [[A-Z]], [[a-z]], [\d] *)
Definition upper (c : ascii) : bool := PyStr.in_range "A" "Z" c.
Definition lower (c : ascii) : bool := PyStr.in_range "a" "z" c.
Definition digit (c : ascii) : bool := PyStr.in_range "0" "9" c.

End Re.

(* ===================================================================== *)
(** ** Values decoded from JSON *)
(* ===================================================================== *)

Inductive pyval : Type :=
| PNone
| PBool (b : bool)
| PInt (z : Z)
| PStr (s : string).

(** Truth value of a Python object. *)
Definition truthy (v : pyval) : bool :=
  match v with
  | PNone => false
  | PBool b => b
  | PInt z => negb (z =? 0)%Z
  | PStr s => negb (PyStr.is_empty s)
  end.

(** [str(v)] *)
Definition py_str (v : pyval) : string :=
  match v with
  | PNone => "None"
  | PBool true => "True"
  | PBool false => "False"
  | PInt z => PyStr.of_Z z
  | PStr s => s
  end.

(* ===================================================================== *)
(** ** app/utils.py *)
(* ===================================================================== *)

(** The classes of the e-mail pattern. *)
Definition local_char (c : ascii) : bool :=
  Re.lower c || Re.upper c || Re.digit c || PyStr.mem c "._%+-".
Definition domain_char (c : ascii) : bool :=
  Re.lower c || Re.upper c || Re.digit c || PyStr.mem c ".-".
Definition tld_char (c : ascii) : bool :=
  Re.lower c || Re.upper c.

(** [^[a-zA-Z0-9._%+-]+@[a-zA-Z0-9.-]+\.[a-zA-Z]{2,}$] *)
Definition email_pattern : Re.regex :=
  Re.Cat Re.Bol
 (Re.Cat (Re.Plus (Re.Cls local_char))
 (Re.Cat (Re.Chr "@")
 (Re.Cat (Re.Plus (Re.Cls domain_char))
 (Re.Cat (Re.Chr ".")
 (Re.Cat (Re.AtLeast 2 (Re.Cls tld_char))
          Re.Eol))))).

Definition validate_email (email : string) : bool :=
  Re.re_match email_pattern email.

(** The class of the last rule: the twenty characters of [special_chars]
    (the double quote is written by code point). *)
Definition special_chars : string :=
  "!@#$%^&*(),.?" ++ String PyStr.dquote ":{}|<>".
Definition special (c : ascii) : bool := PyStr.mem c special_chars.

(** [validate_password] on a password of code points up to U+00FF;
    [Unicode.validate_password] is the function on any [str]. *)
Definition validate_password (password : string) : bool * string :=
  if (String.length password <? 8)%nat then
    (false, "Password must be at least 8 characters long")
  else if negb (Re.re_search (Re.Cls Re.upper) password) then
    (false, "Password must contain at least one uppercase letter")
  else if negb (Re.re_search (Re.Cls Re.lower) password) then
    (false, "Password must contain at least one lowercase letter")
  else if negb (Re.re_search (Re.Cls Re.digit) password) then
    (false, "Password must contain at least one digit")
  else if negb (Re.re_search (Re.Cls special) password) then
    (false, "Password must contain at least one special character")
  else
    (true, "Password is valid").

(** [html.escape(s)] with [quote=True]: five replacements, [&] first. *)
Definition html_escape (s : string) : string :=
  let s := PyStr.replace "&" "&amp;" s in
  let s := PyStr.replace "<" "&lt;" s in
  let s := PyStr.replace ">" "&gt;" s in
  let s := PyStr.replace (String PyStr.dquote "") "&quot;" s in
  PyStr.replace "'" "&#x27;" s.

Definition dangerous_chars : list string :=
  [";"; "--"; "/*"; "*/"; "xp_"; "sp_"].

Definition sanitize_input (input_string : pyval) : string :=
  if negb (truthy input_string) then ""
  else
    let sanitized := html_escape (PyStr.strip (py_str input_string)) in
    fold_left (fun sanitized char => PyStr.replace char "" sanitized)
              dangerous_chars sanitized.

(* ===================================================================== *)
(** ** The specification's wording, for comparison with the code *)
(* ===================================================================== *)

Module Spec.

Definition ascii_upper : string := "ABCDEFGHIJKLMNOPQRSTUVWXYZ".
Definition ascii_lower : string := "abcdefghijklmnopqrstuvwxyz".
Definition ascii_digits : string := "0123456789".

Definition is_upper (c : ascii) : bool := PyStr.mem c ascii_upper.
Definition is_lower (c : ascii) : bool := PyStr.mem c ascii_lower.
Definition is_digit (c : ascii) : bool := PyStr.mem c ascii_digits.
Definition is_letter (c : ascii) : bool := is_upper c || is_lower c.

(** The five rules of the password policy, in the order they are checked. *)
Inductive rule : Type :=
| MinLength
| HasUpper
| HasLower
| HasDigit
| HasSpecial.

Definition rules : list rule :=
  [MinLength; HasUpper; HasLower; HasDigit; HasSpecial].

Definition satisfies (r : rule) (s : string) : bool :=
  match r with
  | MinLength => (8 <=? String.length s)%nat
  | HasUpper => PyStr.any is_upper s
  | HasLower => PyStr.any is_lower s
  | HasDigit => PyStr.any is_digit s
  | HasSpecial => PyStr.any (fun c => PyStr.mem c special_chars) s
  end.

(** Position of a rule in the order of checking. *)
Definition rank (r : rule) : nat :=
  match r with
  | MinLength => 0
  | HasUpper => 1
  | HasLower => 2
  | HasDigit => 3
  | HasSpecial => 4
  end.

Definition first_violated (s : string) : option rule :=
  find (fun r => negb (satisfies r s)) rules.

Definition reason (r : rule) : string :=
  match r with
  | MinLength => "Password must be at least 8 characters long"
  | HasUpper => "Password must contain at least one uppercase letter"
  | HasLower => "Password must contain at least one lowercase letter"
  | HasDigit => "Password must contain at least one digit"
  | HasSpecial => "Password must contain at least one special character"
  end.

(** The shape of an address: local part, [@], domain, [.], top-level
    domain.  The local part holds no [@] and the top-level domain no [.], so
    the separators are the first [@] and the last [.] after it. *)
Fixpoint cut_first (c : ascii) (s : string) : option (string * string) :=
  match s with
  | EmptyString => None
  | String d s' =>
      if Ascii.eqb d c then Some (EmptyString, s')
      else match cut_first c s' with
           | Some (a, b) => Some (String d a, b)
           | None => None
           end
  end.

Fixpoint cut_last (c : ascii) (s : string) : option (string * string) :=
  match s with
  | EmptyString => None
  | String d s' =>
      match cut_last c s' with
      | Some (a, b) => Some (String d a, b)
      | None => if Ascii.eqb d c then Some (EmptyString, s') else None
      end
  end.

Definition local_ok (c : ascii) : bool :=
  is_letter c || is_digit c || PyStr.mem c "._%+-".
Definition domain_ok (c : ascii) : bool :=
  is_letter c || is_digit c || PyStr.mem c ".-".

Definition email_shape (s : string) : bool :=
  match cut_first "@" s with
  | None => false
  | Some (loc, rest) =>
      match cut_last "." rest with
      | None => false
      | Some (dom, tld) =>
          negb (PyStr.is_empty loc) && PyStr.all local_ok loc
          && negb (PyStr.is_empty dom) && PyStr.all domain_ok dom
          && (2 <=? String.length tld)%nat && PyStr.all is_letter tld
      end
  end.

(** [s] without its last character, when that is a line feed. *)
Fixpoint chop_newline (s : string) : option string :=
  match s with
  | EmptyString => None
  | String c EmptyString =>
      if Ascii.eqb c PyStr.newline then Some EmptyString else None
  | String c s' =>
      match chop_newline s' with
      | Some t => Some (String c t)
      | None => None
      end
  end.

(** An address, or an address followed by one line feed. *)
Definition email_shape_or_newline (s : string) : bool :=
  email_shape s ||
  match chop_newline s with
  | Some t => email_shape t
  | None => false
  end.

(** Trimming, by reversal. *)
Fixpoint rev (s : string) : string :=
  match s with
  | EmptyString => EmptyString
  | String c s' => rev s' ++ String c EmptyString
  end.

Fixpoint drop_space (s : string) : string :=
  match s with
  | EmptyString => EmptyString
  | String c s' => if PyStr.isspace c then drop_space s' else s
  end.

Definition trim (s : string) : string := rev (drop_space (rev (drop_space s))).

(** Escaping of the five reserved characters, one character at a time. *)
Definition reserved (c : ascii) : bool :=
  PyStr.mem c (String PyStr.dquote "&<>'").

Definition escape_char (c : ascii) : string :=
  if Ascii.eqb c "&" then "&amp;"
  else if Ascii.eqb c "<" then "&lt;"
  else if Ascii.eqb c ">" then "&gt;"
  else if Ascii.eqb c PyStr.dquote then "&quot;"
  else if Ascii.eqb c "'" then "&#x27;"
  else String c EmptyString.

(** Every character [c] of [s] replaced by [f c]. *)
Fixpoint expand (f : ascii -> string) (s : string) : string :=
  match s with
  | EmptyString => EmptyString
  | String c s' => f c ++ expand f s'
  end.

Definition escape (s : string) : string := expand escape_char s.

Fixpoint drop (n : nat) (s : string) : string :=
  match n, s with
  | O, _ => s
  | S _, EmptyString => EmptyString
  | S k, String _ s' => drop k s'
  end.

(** Removal of the occurrences of [sub], leftmost first: where [sub] starts,
    it is dropped whole; elsewhere the character is kept. *)
Fixpoint remove_fuel (fuel : nat) (sub s : string) : string :=
  match fuel with
  | O => s
  | S f =>
      match s with
      | EmptyString => EmptyString
      | String c s' =>
          if prefix sub s
          then remove_fuel f sub (drop (String.length sub) s)
          else String c (remove_fuel f sub s')
      end
  end.

Definition remove (sub s : string) : string :=
  remove_fuel (String.length s) sub s.

Definition denylist : list string := [";"; "--"; "/*"; "*/"; "xp_"; "sp_"].

(** trim, then escape, then strip the denylist, entry by entry. *)
Definition sanitize (s : string) : string :=
  fold_left (fun acc sub => remove sub acc) denylist (escape (trim s)).

(** Well-formed escaped text: every [&] opens one of the five entities,
    terminating semicolon included. *)
Definition entity_tails : list string :=
  ["amp;"; "lt;"; "gt;"; "quot;"; "#x27;"].

Fixpoint well_escaped (s : string) : bool :=
  match s with
  | EmptyString => true
  | String c s' =>
      (if Ascii.eqb c "&"
       then existsb (fun t => prefix t s') entity_tails
       else true)
      && well_escaped s'
  end.

End Spec.

(* ===================================================================== *)
(** ** app/utils.py: validate_password on a str of any code points *)
(* ===================================================================== *)

Module Unicode.

(** A Python [str] is a sequence of code points; [string] above holds the
    ones up to U+00FF. *)
Definition str : Type := list N.

Definition of_string (s : string) : str :=
  map PyStr.ord (list_ascii_of_string s).

(** What a one-character pattern is made of: a range [[lo-hi]], the
    category [\d], or a set of listed characters. *)
Inductive charset : Type :=
| Range (lo hi : N)
| Digit
| OneOf (chars : str).

(** The blocks of decimal digits (general category Nd) of Unicode 14.0, the
    database of CPython 3.11: the ASCII digits, then the digits of the other
    scripts. *)
Definition decimal_blocks : list (N * N) :=
  [(48, 57); (1632, 1641); (1776, 1785); (1984, 1993); (2406, 2415);
   (2534, 2543); (2662, 2671); (2790, 2799); (2918, 2927); (3046, 3055);
   (3174, 3183); (3302, 3311); (3430, 3439); (3558, 3567); (3664, 3673);
   (3792, 3801); (3872, 3881); (4160, 4169); (4240, 4249); (6112, 6121);
   (6160, 6169); (6470, 6479); (6608, 6617); (6784, 6793); (6800, 6809);
   (6992, 7001); (7088, 7097); (7232, 7241); (7248, 7257); (42528, 42537);
   (43216, 43225); (43264, 43273); (43472, 43481); (43504, 43513);
   (43600, 43609); (44016, 44025); (65296, 65305); (66720, 66729);
   (68912, 68921); (69734, 69743); (69872, 69881); (69942, 69951);
   (70096, 70105); (70384, 70393); (70736, 70745); (70864, 70873);
   (71248, 71257); (71360, 71369); (71472, 71481); (71904, 71913);
   (72016, 72025); (72784, 72793); (73040, 73049); (73120, 73129);
   (92768, 92777); (92864, 92873); (93008, 93017); (120782, 120831);
   (123200, 123209); (123632, 123641); (125264, 125273); (130032, 130041)]%N.

Definition isdecimal_14 (c : N) : bool :=
  existsb (fun b => (fst b <=? c) && (c <=? snd b))%N decimal_blocks.

Section Database.

(** The decimal digits of the interpreter's Unicode database: what [\d]
    matches in a [str] pattern. *)
Variable isdecimal : N -> bool.

Definition in_charset (k : charset) (c : N) : bool :=
  match k with
  | Range lo hi => (lo <=? c)%N && (c <=? hi)%N
  | Digit => isdecimal c
  | OneOf chars => existsb (N.eqb c) chars
  end.

(** [re.search(k, s)] as a truth value, for a pattern that is one character
    set: the scan stops at the first character of the set. *)
Fixpoint re_search (k : charset) (s : str) : bool :=
  match s with
  | [] => false
  | c :: s' => if in_charset k c then true else re_search k s'
  end.

Definition validate_password (password : str) : bool * string :=
  if (List.length password <? 8)%nat then
    (false, "Password must be at least 8 characters long")
  else if negb (re_search (Range (PyStr.ord "A") (PyStr.ord "Z")) password) then
    (false, "Password must contain at least one uppercase letter")
  else if negb (re_search (Range (PyStr.ord "a") (PyStr.ord "z")) password) then
    (false, "Password must contain at least one lowercase letter")
  else if negb (re_search Digit password) then
    (false, "Password must contain at least one digit")
  else if negb (re_search (OneOf (of_string special_chars)) password) then
    (false, "Password must contain at least one special character")
  else
    (true, "Password is valid").

(** The five rules in the specification's words: the letters are the ASCII
    ones, listed; a digit is a decimal digit of any script. *)
Definition listed (chars : string) (c : N) : bool :=
  existsb (N.eqb c) (of_string chars).

Definition satisfies (r : Spec.rule) (s : str) : bool :=
  match r with
  | Spec.MinLength => (8 <=? List.length s)%nat
  | Spec.HasUpper => existsb (listed Spec.ascii_upper) s
  | Spec.HasLower => existsb (listed Spec.ascii_lower) s
  | Spec.HasDigit => existsb isdecimal s
  | Spec.HasSpecial => existsb (listed special_chars) s
  end.

Definition first_violated (s : str) : option Spec.rule :=
  find (fun r => negb (satisfies r s)) Spec.rules.

End Database.

(** The database agrees with ASCII below U+0100: its only decimal digits
    there are [0] to [9]. *)
Definition ascii_digits_only (isdecimal : N -> bool) : Prop :=
  forall c, (c < 256)%N -> isdecimal c = ((48 <=? c) && (c <=? 57))%N.

(** [Abcdefg!] followed by U+0663, ARABIC-INDIC DIGIT THREE. *)
Definition arabic_digit_password : str := (of_string "Abcdefg!" ++ [1635%N])%list.

End Unicode.

(* ===================================================================== *)
(** ** Request bodies, responses, exceptions *)
(* ===================================================================== *)

(** What [request.get_json()] returns.  A dict is the list of its items; a
    key occurs once and [assoc] reads the first binding. *)
Inductive pybody : Type :=
| BVal (v : pyval)
| BList (l : list pyval)
| BDict (d : list (string * pyval)).

Inductive exn : Type :=
| TypeError
| KeyError
| AttributeError
| ValueError
| DbError
| BadRequest
| UnsupportedMediaType.

(** A request as a route sees it: what [request.get_json()] does.  It
    returns the document of the body, or raises: [BadRequest] when the
    content type is JSON and the body is empty or is no JSON text,
    [UnsupportedMediaType] when the content type is not JSON (Flask 2.1 and
    later; earlier versions return [None] there). *)
Record Request : Type := mkRequest { get_json : exn + pybody }.

Fixpoint assoc {A : Type} (k : string) (d : list (string * A)) : option A :=
  match d with
  | [] => None
  | (k', v) :: d' => if String.eqb k k' then Some v else assoc k d'
  end.

Definition pyval_eqb (a b : pyval) : bool :=
  match a, b with
  | PNone, PNone => true
  | PBool x, PBool y => Bool.eqb x y
  | PInt x, PInt y => (x =? y)%Z
  | PBool x, PInt y | PInt y, PBool x => ((if x then 1 else 0) =? y)%Z
  | PStr x, PStr y => String.eqb x y
  | _, _ => false
  end.

(** [bool(data)] *)
Definition body_truthy (data : pybody) : bool :=
  match data with
  | BVal v => truthy v
  | BList l => match l with [] => false | _ => true end
  | BDict d => match d with [] => false | _ => true end
  end.

(** [key in data] *)
Definition py_in (key : string) (data : pybody) : exn + bool :=
  match data with
  | BVal (PStr s) => inr (PyStr.contains key s)
  | BVal _ => inl TypeError
  | BList l => inr (existsb (pyval_eqb (PStr key)) l)
  | BDict d => inr (match assoc key d with Some _ => true | None => false end)
  end.

(** [data[key]] for a string key. *)
Definition py_getitem (data : pybody) (key : string) : exn + pyval :=
  match data with
  | BDict d => match assoc key d with Some v => inr v | None => inl KeyError end
  | _ => inl TypeError
  end.

(** [data.get(key, default)] *)
Definition py_get (data : pybody) (key : string) (default : pyval) : exn + pyval :=
  match data with
  | BDict d => inr (match assoc key d with Some v => v | None => default end)
  | _ => inl AttributeError
  end.

(** A JSON document produced by [jsonify]. *)
#[warnings="-register-all"]
Inductive json : Type :=
| JStr (s : string)
| JNum (n : Z)
| JObj (fields : list (string * json)).

(** A route's return value: [jsonify(...), status]. *)
Record Response : Type := mkResponse { body : json; status : nat }.

Definition jsonify (fields : list (string * json)) : json := JObj fields.

Definition error_response (msg : string) (code : nat) : Response :=
  mkResponse (jsonify [("error", JStr msg)]) code.

(* ===================================================================== *)
(** ** app/utils.py, the functions no route calls *)
(* ===================================================================== *)

Definition dangerous_schemes : list string :=
  ["javascript:"; "data:"; "vbscript:"].

(** The loop over [dangerous_schemes] and the [return False] after it. *)
Fixpoint is_safe_url_schemes (url : string) (schemes : list string) : bool :=
  match schemes with
  | [] => false
  | scheme :: rest =>
      if prefix scheme (PyStr.lower url) then false
      else is_safe_url_schemes url rest
  end.

(** [url.startswith] exists on strings only. *)
Definition is_safe_url (url : pyval) : exn + bool :=
  if negb (truthy url) then inr false
  else
    match url with
    | PStr s =>
        if prefix "/" s then inr true
        else inr (is_safe_url_schemes s dangerous_schemes)
    | _ => inl AttributeError
    end.

(** [secrets.token_hex(32)]: the hexadecimal form of 32 bytes drawn from the
    system's random source, here the argument [token_bytes]. *)
Definition generate_csrf_token (token_bytes : nat -> list ascii) : string :=
  PyStr.hex (token_bytes 32).

(** [hmac.compare_digest] on two strings: equality, and [TypeError] when
    one of them holds a character outside ASCII. *)
Definition validate_csrf_token (token session_token : string) : exn + bool :=
  if PyStr.isascii token && PyStr.isascii session_token
  then inr (String.eqb token session_token)
  else inl TypeError.

(** The digits of [bytes.hex()]. *)
Definition is_hex_digit (c : ascii) : bool := PyStr.mem c "0123456789abcdef".

(** Equality of two byte strings. *)
Definition bytes_eqb (a b : list ascii) : bool :=
  if list_eq_dec ascii_dec a b then true else false.

(* ===================================================================== *)
(** ** The user table and the database session *)
(* ===================================================================== *)

Module Users.

Record User : Type := mkUser {
  id : nat;
  email : string;
  username : string;
  password : string;
  created_at : Z
}.

End Users.
Import Users.

Definition Store : Type := list User.

Definition find_by_email (e : string) (db : Store) : option User :=
  find (fun u => String.eqb (email u) e) db.

Definition find_by_id (i : nat) (db : Store) : option User :=
  find (fun u => Nat.eqb (id u) i) db.

(** Modelled from the spec: [app/models.py] is not among the sources; the
    spec has [id] unique and assigned at creation.  The key of a new row is
    one more than the largest key in the table. *)
Definition next_id (db : Store) : nat :=
  S (fold_right (fun u m => Nat.max (id u) m) 0 db).

(** The row with the key of [u] is replaced by [u]. *)
Fixpoint update_row (u : User) (db : Store) : Store :=
  match db with
  | [] => []
  | r :: rest =>
      if Nat.eqb (id r) (id u) then u :: rest else r :: update_row u rest
  end.

(** What a request does to its collaborators, in order. *)
Inductive event : Type :=
| EvQueryEmail (e : string)
| EvQueryId (i : nat)
| EvGenerateHash
| EvCheckHash (stored : string)
| EvCreateToken (identity : nat)
| EvAdd (u : User)
| EvCommit
| EvRollback.

(** State of a request: the committed table, the table as the session sees
    it, and the events so far. *)
Record St : Type := mkSt {
  committed : Store;
  pending : Store;
  trace : list event
}.

(** Computations that read and write [St] and may raise; the state reached
    when an exception is raised is kept. *)
Definition M (A : Type) : Type := St -> (exn + A) * St.

Definition ret {A : Type} (a : A) : M A := fun st => (inr a, st).

Definition raise {A : Type} (e : exn) : M A := fun st => (inl e, st).

Definition bind {A B : Type} (m : M A) (k : A -> M B) : M B :=
  fun st =>
    match m st with
    | (inl e, st') => (inl e, st')
    | (inr a, st') => k a st'
    end.

Definition lift {A : Type} (r : exn + A) : M A := fun st => (r, st).

(** [try: m  except Exception as e: h e] *)
Definition try_except {A : Type} (m : M A) (h : exn -> M A) : M A :=
  fun st =>
    match m st with
    | (inl e, st') => h e st'
    | (inr a, st') => (inr a, st')
    end.

Declare Scope py_scope.
Delimit Scope py_scope with py.
Notation "x <- m ;; k" := (bind m (fun x => k))
  (at level 61, m at next level, right associativity) : py_scope.
Notation "m ;;; k" := (bind m (fun _ => k))
  (at level 61, right associativity) : py_scope.

(** [a or b] on conditions that may raise: [b] is evaluated only when [a]
    is false. *)
Definition orM (a b : M bool) : M bool :=
  bind a (fun x => if x then ret true else b).

(** [not data or 'email' not in data or 'password' not in data], the first
    test of [register] and of [login]. *)
Definition credentials_missing (data : pybody) : M bool :=
  orM (ret (negb (body_truthy data)))
      (orM (bind (lift (py_in "email" data)) (fun present => ret (negb present)))
           (bind (lift (py_in "password" data)) (fun present => ret (negb present)))).

Definition log_event (e : event) : M unit :=
  fun st => (inr tt, mkSt (committed st) (pending st) (trace st ++ [e])%list).

(** [User.query.filter_by(email=e).first()] *)
Definition query_filter_by_email (e : string) : M (option User) :=
  fun st =>
    (inr (find_by_email e (pending st)),
     mkSt (committed st) (pending st) (trace st ++ [EvQueryEmail e])%list).

(** [User.query.get(i)] *)
Definition query_get (i : nat) : M (option User) :=
  fun st =>
    (inr (find_by_id i (pending st)),
     mkSt (committed st) (pending st) (trace st ++ [EvQueryId i])%list).

(** [db.session.add(u)] *)
Definition session_add (u : User) : M unit :=
  fun st =>
    (inr tt, mkSt (committed st) (pending st ++ [u])%list (trace st ++ [EvAdd u])%list).

(** [db.session.rollback()] *)
Definition session_rollback : M unit :=
  fun st =>
    (inr tt, mkSt (committed st) (committed st) (trace st ++ [EvRollback])%list).

(** The response and the table a request leaves behind, with its events.
    A session lives for one request: what was not committed is dropped. *)
Definition run {A : Type} (m : M A) (db : Store) : (exn + A) * Store * list event :=
  let '(r, st) := m (mkSt db db []) in (r, committed st, trace st).

(** A request body from which [email] or [password] is missing: an absent
    or empty body, or a dict without one of the two keys. *)
Definition fields_missing (data : pybody) : Prop :=
  body_truthy data = false \/
  exists d, data = BDict d /\ (assoc "email" d = None \/ assoc "password" d = None).

(** [rejects data db msg]: the request carries both fields and the first
    check of [register] it does not pass is the one reported by [msg]. *)
Inductive rejects (data : pybody) (db : Store) : string -> Prop :=
| RejMissing :
    fields_missing data ->
    rejects data db "Email and password required"
| RejEmail d e p :
    data = BDict d -> assoc "email" d = Some e -> assoc "password" d = Some p ->
    validate_email (sanitize_input e) = false ->
    rejects data db "Invalid email format"
| RejPassword d e pw msg :
    data = BDict d -> assoc "email" d = Some e ->
    assoc "password" d = Some (PStr pw) ->
    validate_email (sanitize_input e) = true ->
    validate_password pw = (false, msg) ->
    rejects data db msg
| RejExists d e pw u :
    data = BDict d -> assoc "email" d = Some e ->
    assoc "password" d = Some (PStr pw) ->
    validate_email (sanitize_input e) = true ->
    fst (validate_password pw) = true ->
    find_by_email (sanitize_input e) db = Some u ->
    rejects data db "User already exists".

(** The part of an address before its first [@]. *)
Definition local_part (address : string) : string :=
  match Spec.cut_first "@" address with
  | Some (l, _) => l
  | None => address
  end.

(** The username a register request asks for: the supplied one, or the local
    part of the address. *)
Definition requested_username (d : list (string * pyval)) (address : string) : pyval :=
  match assoc "username" d with
  | Some v => v
  | None => PStr (local_part address)
  end.

(** Events that write to the table. *)
Definition writes (e : event) : bool :=
  match e with
  | EvAdd _ | EvCommit => true
  | _ => false
  end.

(** The fields of a row that no route may change. *)
Definition same_identity (u v : User) : Prop :=
  id u = id v /\ email u = email v /\ password u = password v
  /\ created_at u = created_at v.

(** What a profile update may do to a row: nothing to its key, e-mail,
    password hash and creation time, and nothing at all to the rows of
    other users. *)
Definition framed (uid : nat) (a b : User) : Prop :=
  same_identity a b /\ (id a <> uid -> a = b).

(** The public fields returned by a successful profile update. *)
Definition profile_updated (u : User) : json :=
  jsonify [("message", JStr "Profile updated successfully");
           ("user", JObj [("id", JNum (Z.of_nat (id u)));
                          ("email", JStr (email u));
                          ("username", JStr (username u))])].

(** A concrete environment, to run the routes on examples. *)
Module Demo.

Definition generate_password_hash (salt pw : string) : string :=
  "pbkdf2:sha256$" ++ salt ++ "$" ++ pw.

Definition check_password_hash (stored pw : string) : bool :=
  match PyStr.split "$" stored with
  | Some [_; _; p] => String.eqb p pw
  | _ => false
  end.

Definition create_access_token (now : Z) (identity : nat) : string :=
  "jwt." ++ PyStr.of_Z (Z.of_nat identity) ++ "." ++ PyStr.of_Z now.

Definition commit_ok (old new : Store) : bool := true.

Definition column_text (v : pyval) : option string :=
  match v with
  | PStr s => Some s
  | _ => None
  end.

Definition script_payload : string := "<script>alert(1)</script>".

Definition alice : pybody :=
  BDict [("email", PStr "a@b.com"); ("password", PStr "Abc12345!")].

Definition mallory : pybody :=
  BDict [("email", PStr "xss@example.com"); ("password", PStr "StrongP@ss123");
         ("username", PStr script_payload)].

End Demo.

(* ===================================================================== *)
(** ** app/routes.py *)
(* ===================================================================== *)

Local Open Scope py_scope.

Section Routes.

(** [werkzeug.security]: the salt of [generate_password_hash] is drawn by the
    library; here it is an argument. *)
Variable generate_password_hash : string -> string -> string.
Variable check_password_hash : string -> string -> bool.

(** [flask_jwt_extended.create_access_token], at a given time. *)
Variable create_access_token : Z -> nat -> string.

(** The database decides whether a commit goes through (constraints of the
    schema, availability), given the committed and the pending table. *)
Variable commit_ok : Store -> Store -> bool.

(** How the [username] column binds a Python value; [None] when the driver
    refuses it. *)
Variable column_text : pyval -> option string.

(** [db.session.commit()] *)
Definition session_commit : M unit :=
  fun st =>
    if commit_ok (committed st) (pending st)
    then (inr tt, mkSt (pending st) (pending st) (trace st ++ [EvCommit])%list)
    else (inl DbError, mkSt (committed st) (pending st) (trace st ++ [EvCommit])%list).

(** A password handed to a function that needs a [str]: [len], [re.search]
    and the hasher raise on anything else. *)
Definition as_str (v : pyval) : M string :=
  match v with
  | PStr s => ret s
  | _ => raise TypeError
  end.

(** [User(email=..., password=..., username=...)]; the key and [created_at]
    are filled in by the database. *)
Definition new_User (now : Z) (e hashed : string) (name : pyval) : M User :=
  fun st =>
    match column_text name with
    | Some n => (inr (mkUser (next_id (pending st)) e n hashed now), st)
    | None => (inl DbError, st)
    end.

(** [user.username = name] on an object of the session. *)
Definition set_username (u : User) (name : string) : M User :=
  fun st =>
    let u' := mkUser (id u) (email u) name (password u) (created_at u) in
    (inr u', mkSt (committed st) (update_row u' (pending st)) (trace st)).

(** The [try] block of [register] from the statement after
    [data = request.get_json()]. *)
Definition register_try (now : Z) (salt : string) (data : pybody) : M Response :=
    (missing <- credentials_missing data ;;
     if missing then ret (error_response "Email and password required" 400)
     else
       raw_email <- lift (py_getitem data "email") ;;
       let email := sanitize_input raw_email in
       password <- lift (py_getitem data "password") ;;
       if negb (validate_email email) then
         ret (error_response "Invalid email format" 400)
       else
         password <- as_str password ;;
         let '(is_valid, message) := validate_password password in
         if negb is_valid then ret (error_response message 400)
         else
           existing <- query_filter_by_email email ;;
           match existing with
           | Some _ => ret (error_response "User already exists" 400)
           | None =>
               log_event EvGenerateHash ;;;
               let hashed_password := generate_password_hash salt password in
               parts <- lift (match PyStr.split "@" email with
                              | Some l => inr l
                              | None => inl ValueError
                              end) ;;
               name <- lift (py_get data "username" (PStr (hd "" parts))) ;;
               new_user <- new_User now email hashed_password name ;;
               session_add new_user ;;;
               session_commit ;;;
               ret (mkResponse
                      (jsonify [("message", JStr "User registered successfully");
                                ("user_id", JNum (Z.of_nat (id new_user)))])
                      201)
           end).

(** The [except Exception] clause of [register]. *)
Definition register_except (e : exn) : M Response :=
  session_rollback ;;;
  ret (error_response "Registration failed" 500).

(** [register] on a request whose [get_json()] has returned [data]. *)
Definition register (now : Z) (salt : string) (data : pybody) : M Response :=
  try_except (register_try now salt data) register_except.

(** [register] on any request: [request.get_json()] is the first statement
    of the [try] block. *)
Definition register_request (now : Z) (salt : string) (request : Request)
  : M Response :=
  try_except
    (data <- lift (get_json request) ;; register_try now salt data)
    register_except.

(** The [try] block of [login] from the statement after
    [data = request.get_json()]. *)
Definition login_try (now : Z) (data : pybody) : M Response :=
    (missing <- credentials_missing data ;;
     if missing then ret (error_response "Email and password required" 400)
     else
       raw_email <- lift (py_getitem data "email") ;;
       let email := sanitize_input raw_email in
       password <- lift (py_getitem data "password") ;;
       user <- query_filter_by_email email ;;
       rejected <- match user with
                   | None => ret true
                   | Some u =>
                       log_event (EvCheckHash (Users.password u)) ;;;
                       password <- as_str password ;;
                       ret (negb (check_password_hash (Users.password u) password))
                   end ;;
       match user, rejected with
       | Some u, false =>
           log_event (EvCreateToken (id u)) ;;;
           let access_token := create_access_token now (id u) in
           ret (mkResponse
                  (jsonify [("message", JStr "Login successful");
                            ("access_token", JStr access_token);
                            ("user", JObj [("id", JNum (Z.of_nat (id u)));
                                           ("email", JStr (Users.email u));
                                           ("username", JStr (username u))])])
                  200)
       | _, _ => ret (error_response "Invalid credentials" 401)
       end).

(** The [except Exception] clause of [login]. *)
Definition login_except (e : exn) : M Response :=
  ret (error_response "Login failed" 500).

(** [login] on a request whose [get_json()] has returned [data]. *)
Definition login (now : Z) (data : pybody) : M Response :=
  try_except (login_try now data) login_except.

(** [login] on any request: [request.get_json()] is the first statement of
    the [try] block. *)
Definition login_request (now : Z) (request : Request) : M Response :=
  try_except
    (data <- lift (get_json request) ;; login_try now data)
    login_except.

(** [update_profile] from the statement after
    [data = request.get_json()], for the row [user] of the caller. *)
Definition update_profile_with (user : User) (data : pybody) : M Response :=
         given <- lift (py_in "username" data) ;;
         step <- (if given : bool then
                    raw <- lift (py_getitem data "username") ;;
                    let name := sanitize_input raw in
                    if (String.length name <? 3)%nat then
                      ret (inl (error_response
                                  "Username must be at least 3 characters" 400))
                    else
                      user <- set_username user name ;; ret (inr user)
                  else ret (inr user)) ;;
         match step with
         | inl early => ret early
         | inr user =>
             session_commit ;;;
             ret (mkResponse
                    (jsonify [("message", JStr "Profile updated successfully");
                              ("user", JObj [("id", JNum (Z.of_nat (id user)));
                                             ("email", JStr (email user));
                                             ("username", JStr (username user))])])
                    200)
         end.

(** The [except Exception] clause of [update_profile]. *)
Definition update_profile_except (e : exn) : M Response :=
  session_rollback ;;;
  ret (error_response "Failed to update profile" 500).

(** [update_profile] on a request whose [get_json()] returns [data]. *)
Definition update_profile (current_user_id : nat) (data : pybody) : M Response :=
  try_except
    (found <- query_get current_user_id ;;
     match found with
     | None => ret (error_response "User not found" 404)
     | Some user => update_profile_with user data
     end)
    update_profile_except.

(** [update_profile] on any request: [request.get_json()] is called once
    the row of the caller has been found. *)
Definition update_profile_request (current_user_id : nat) (request : Request)
  : M Response :=
  try_except
    (found <- query_get current_user_id ;;
     match found with
     | None => ret (error_response "User not found" 404)
     | Some user =>
         data <- lift (get_json request) ;; update_profile_with user data
     end)
    update_profile_except.

End Routes.

Section ReadRoutes.

(** [datetime.isoformat] of the stored creation time. *)
Variable isoformat : Z -> string.

Definition get_profile (current_user_id : nat) : M Response :=
  try_except
    (found <- query_get current_user_id ;;
     match found with
     | None => ret (error_response "User not found" 404)
     | Some user =>
         ret (mkResponse
                (jsonify [("id", JNum (Z.of_nat (id user)));
                          ("email", JStr (email user));
                          ("username", JStr (username user));
                          ("created_at", JStr (isoformat (created_at user)))])
                200)
     end)
    (fun _ => ret (error_response "Failed to fetch profile" 500)).

End ReadRoutes.

(** The answer of a successful login. *)
Definition login_successful (access_token : string) (u : User) : json :=
  jsonify [("message", JStr "Login successful");
           ("access_token", JStr access_token);
           ("user", JObj [("id", JNum (Z.of_nat (id u)));
                          ("email", JStr (email u));
                          ("username", JStr (username u))])].

(** The answer of a successful registration. *)
Definition user_registered (user_id : nat) : json :=
  jsonify [("message", JStr "User registered successfully");
           ("user_id", JNum (Z.of_nat user_id))].

(** A row with another username. *)
Definition renamed (u : User) (name : string) : User :=
  mkUser (id u) (email u) name (password u) (created_at u).

(** The fields returned by a successful profile fetch. *)
Definition profile_fetched (isoformat : Z -> string) (u : User) : json :=
  jsonify [("id", JNum (Z.of_nat (id u)));
           ("email", JStr (email u));
           ("username", JStr (username u));
           ("created_at", JStr (isoformat (created_at u)))].

(** Random sources and a clock rendering, for examples. *)
Definition zero_bytes (n : nat) : list ascii := repeat "000"%char n.
Definition count_bytes (n : nat) : list ascii :=
  map (fun k => ascii_of_nat k) (seq 0 n).
Definition demo_isoformat (t : Z) : string := PyStr.of_Z t.

(** The routes in the environment of [Demo]. *)
Module Run.

Definition register := register Demo.generate_password_hash Demo.commit_ok Demo.column_text.
Definition login := login Demo.check_password_hash Demo.create_access_token.
Definition update_profile := update_profile Demo.commit_ok.

End Run.

(** A row of the user table, for examples. *)
Definition alice_row : User :=
  mkUser 1 "a@b.com" "a" "pbkdf2:sha256$salt$Abc12345!" 0%Z.

(* ===================================================================== *)
(** ** Facts about characters and strings *)
(* ===================================================================== *)

Ltac each_char c := destruct c as [[] [] [] [] [] [] [] []].

Lemma upper_enum c : Re.upper c = Spec.is_upper c.
Proof. each_char c; reflexivity. Qed.

Lemma lower_enum c : Re.lower c = Spec.is_lower c.
Proof. each_char c; reflexivity. Qed.

Lemma digit_enum c : Re.digit c = Spec.is_digit c.
Proof. each_char c; reflexivity. Qed.

Lemma any_ext p q s : (forall c, p c = q c) -> PyStr.any p s = PyStr.any q s.
Proof.
  intros E; induction s as [|c s IH]; simpl; [reflexivity|].
  now rewrite E, IH.
Qed.

Lemma all_ext p q s : (forall c, p c = q c) -> PyStr.all p s = PyStr.all q s.
Proof.
  intros E; induction s as [|c s IH]; simpl; [reflexivity|].
  now rewrite E, IH.
Qed.

(** *** Matching a single character class *)

Lemma match_at_Void b s : Re.match_at b Re.Void s = false.
Proof.
  revert b; induction s as [|c s IH]; intros b; simpl; [reflexivity|apply IH].
Qed.

Lemma match_at_Eps b s : Re.match_at b Re.Eps s = true.
Proof. destruct s; reflexivity. Qed.

Lemma match_at_Cls b p s :
  Re.match_at b (Re.Cls p) s =
  match s with EmptyString => false | String c _ => p c end.
Proof.
  destruct s as [|c s]; simpl; [reflexivity|].
  destruct (p c); [apply match_at_Eps | apply match_at_Void].
Qed.

Lemma search_from_Cls b p s : Re.search_from b (Re.Cls p) s = PyStr.any p s.
Proof.
  revert b; induction s as [|c s IH]; intros b.
  - reflexivity.
  - cbn [Re.search_from PyStr.any]. now rewrite match_at_Cls, IH.
Qed.

Lemma re_search_Cls p s : Re.re_search (Re.Cls p) s = PyStr.any p s.
Proof. apply search_from_Cls. Qed.

(** *** validate_password *)

Lemma search_upper s : Re.re_search (Re.Cls Re.upper) s = Spec.satisfies Spec.HasUpper s.
Proof. rewrite re_search_Cls. apply any_ext, upper_enum. Qed.

Lemma search_lower s : Re.re_search (Re.Cls Re.lower) s = Spec.satisfies Spec.HasLower s.
Proof. rewrite re_search_Cls. apply any_ext, lower_enum. Qed.

Lemma search_digit s : Re.re_search (Re.Cls Re.digit) s = Spec.satisfies Spec.HasDigit s.
Proof. rewrite re_search_Cls. apply any_ext, digit_enum. Qed.

Lemma search_special s : Re.re_search (Re.Cls special) s = Spec.satisfies Spec.HasSpecial s.
Proof. apply re_search_Cls. Qed.

Lemma too_short s :
  (String.length s <? 8)%nat = negb (Spec.satisfies Spec.MinLength s).
Proof. simpl. apply Nat.ltb_antisym. Qed.

Lemma validate_password_by_rules password :
  validate_password password =
  match Spec.first_violated password with
  | None => (true, "Password is valid")
  | Some r => (false, Spec.reason r)
  end.
Proof.
  unfold validate_password, Spec.first_violated, Spec.rules.
  rewrite too_short, search_upper, search_lower, search_digit, search_special.
  cbn [find].
  destruct (Spec.satisfies Spec.MinLength password); cbn [negb]; [|reflexivity].
  destruct (Spec.satisfies Spec.HasUpper password); cbn [negb]; [|reflexivity].
  destruct (Spec.satisfies Spec.HasLower password); cbn [negb]; [|reflexivity].
  destruct (Spec.satisfies Spec.HasDigit password); cbn [negb]; [|reflexivity].
  destruct (Spec.satisfies Spec.HasSpecial password); reflexivity.
Qed.

Lemma first_violated_none s :
  Spec.first_violated s = None <-> forall r, Spec.satisfies r s = true.
Proof.
  unfold Spec.first_violated. split.
  - intros H r.
    assert (In r Spec.rules) as Hr by (destruct r; simpl; tauto).
    pose proof (find_none _ _ H r Hr) as Hn. cbv beta in Hn.
    now destruct (Spec.satisfies r s).
  - intros H. unfold Spec.rules. cbn [find]. now rewrite !H.
Qed.

Lemma first_violated_some s r :
  Spec.satisfies r s = false ->
  (forall r', Spec.rank r' < Spec.rank r -> Spec.satisfies r' s = true) ->
  Spec.first_violated s = Some r.
Proof.
  intros Hr Hbefore. unfold Spec.first_violated, Spec.rules.
  destruct r; cbn [find];
    repeat match goal with
    | |- context [Spec.satisfies ?x s] =>
        first [ rewrite Hr
              | rewrite (Hbefore x) by (simpl; lia) ];
        cbn [negb]
    end; reflexivity.
Qed.

(** On the strings of code points up to U+00FF, where the only decimal
    digits are [0] to [9]: [validate_password] accepts exactly the passwords
    that satisfy the five rules, and a password that violates a rule while
    satisfying every rule checked before it is rejected with the message of
    that rule. *)
Theorem validate_password_policy (password : string) :
  (fst (validate_password password) = true <->
   forall r, Spec.satisfies r password = true) /\
  (forall r,
     Spec.satisfies r password = false ->
     (forall r', Spec.rank r' < Spec.rank r -> Spec.satisfies r' password = true) ->
     validate_password password = (false, Spec.reason r)).
Proof.
  split.
  - rewrite <- first_violated_none, validate_password_by_rules.
    destruct (Spec.first_violated password); simpl; split; congruence.
  - intros r Hr Hbefore.
    rewrite validate_password_by_rules.
    now rewrite (first_violated_some _ _ Hr Hbefore).
Qed.

(** *** The policy on a str of any code points *)

Lemma existsb_eqb_in c l : existsb (N.eqb c) l = true <-> In c l.
Proof.
  rewrite existsb_exists. split.
  - intros (x & Hin & E). apply N.eqb_eq in E. now subst.
  - intros H. exists c. split; [exact H | apply N.eqb_refl].
Qed.

(** A range of the pattern holds the listed characters and no other. *)
Lemma range_listed lo len c :
  existsb (N.eqb c) (map N.of_nat (seq lo len))
  = ((N.of_nat lo <=? c)%N && (c <=? N.of_nat (lo + len - 1))%N
     && negb (len =? 0)%nat).
Proof.
  apply eq_true_iff_eq.
  rewrite existsb_eqb_in, in_map_iff, !andb_true_iff, negb_true_iff,
    !N.leb_le, Nat.eqb_neq.
  split.
  - intros (k & <- & Hk). apply in_seq in Hk. lia.
  - intros [[H1 H2] H3]. exists (N.to_nat c). rewrite N2Nat.id.
    split; [reflexivity|]. apply in_seq. lia.
Qed.

Lemma upper_listed isdecimal c :
  Unicode.in_charset isdecimal
    (Unicode.Range (PyStr.ord "A") (PyStr.ord "Z")) c
  = Unicode.listed Spec.ascii_upper c.
Proof.
  unfold Unicode.listed.
  change (Unicode.of_string Spec.ascii_upper) with (map N.of_nat (seq 65 26)).
  rewrite range_listed. cbn. now rewrite andb_true_r.
Qed.

Lemma lower_listed isdecimal c :
  Unicode.in_charset isdecimal
    (Unicode.Range (PyStr.ord "a") (PyStr.ord "z")) c
  = Unicode.listed Spec.ascii_lower c.
Proof.
  unfold Unicode.listed.
  change (Unicode.of_string Spec.ascii_lower) with (map N.of_nat (seq 97 26)).
  rewrite range_listed. cbn. now rewrite andb_true_r.
Qed.

Section UnicodePolicy.

Variable isdecimal : N -> bool.

Lemma re_search_existsb k s :
  Unicode.re_search isdecimal k s = existsb (Unicode.in_charset isdecimal k) s.
Proof.
  induction s as [|c s IH]; [reflexivity|]. cbn [Unicode.re_search existsb].
  rewrite IH. now destruct (Unicode.in_charset isdecimal k c).
Qed.

Lemma existsb_pointwise (p q : N -> bool) s :
  (forall c, p c = q c) -> existsb p s = existsb q s.
Proof.
  intros H. induction s as [|c s IH]; [reflexivity|].
  cbn [existsb]. now rewrite H, IH.
Qed.

Lemma unicode_validate_password_by_rules password :
  Unicode.validate_password isdecimal password =
  match Unicode.first_violated isdecimal password with
  | None => (true, "Password is valid")
  | Some r => (false, Spec.reason r)
  end.
Proof.
  unfold Unicode.validate_password, Unicode.first_violated, Spec.rules.
  rewrite !re_search_existsb. cbn [find Unicode.satisfies].
  rewrite (existsb_pointwise _ _ password (upper_listed isdecimal)).
  rewrite (existsb_pointwise _ _ password (lower_listed isdecimal)).
  change (Unicode.in_charset isdecimal Unicode.Digit) with isdecimal.
  change (Unicode.in_charset isdecimal
            (Unicode.OneOf (Unicode.of_string special_chars)))
    with (Unicode.listed special_chars).
  rewrite Nat.ltb_antisym.
  destruct (8 <=? List.length password)%nat; cbn [negb]; [|reflexivity].
  destruct (existsb (Unicode.listed Spec.ascii_upper) password);
    cbn [negb]; [|reflexivity].
  destruct (existsb (Unicode.listed Spec.ascii_lower) password);
    cbn [negb]; [|reflexivity].
  destruct (existsb isdecimal password); cbn [negb]; [|reflexivity].
  destruct (existsb (Unicode.listed special_chars) password); reflexivity.
Qed.

Lemma unicode_first_violated_none s :
  Unicode.first_violated isdecimal s = None
  <-> forall r, Unicode.satisfies isdecimal r s = true.
Proof.
  unfold Unicode.first_violated. split.
  - intros H r.
    assert (In r Spec.rules) as Hr by (destruct r; simpl; tauto).
    pose proof (find_none _ _ H r Hr) as Hn. cbv beta in Hn.
    now destruct (Unicode.satisfies isdecimal r s).
  - intros H. unfold Spec.rules. cbn [find]. now rewrite !H.
Qed.

Lemma unicode_first_violated_some s r :
  Unicode.satisfies isdecimal r s = false ->
  (forall r', Spec.rank r' < Spec.rank r ->
              Unicode.satisfies isdecimal r' s = true) ->
  Unicode.first_violated isdecimal s = Some r.
Proof.
  intros Hr Hbefore. unfold Unicode.first_violated, Spec.rules.
  destruct r; cbn [find];
    repeat match goal with
    | |- context [Unicode.satisfies isdecimal ?x s] =>
        first [ rewrite Hr
              | rewrite (Hbefore x) by (simpl; lia) ];
        cbn [negb]
    end; reflexivity.
Qed.

(** C3. For every password, a [str] of any code points, and whatever the
    decimal digits of the interpreter's Unicode database are:
    [validate_password] returns [True] exactly when the five rules hold
    (length at least 8, an uppercase ASCII letter, a lowercase ASCII letter,
    a digit, a character of the special set), and a password that violates a
    rule while satisfying every rule checked before it is rejected with the
    message of that rule.  A digit is what [\d] matches: a decimal digit of
    any script. *)
Theorem validate_password_policy_unicode (password : Unicode.str) :
  (fst (Unicode.validate_password isdecimal password) = true <->
   forall r, Unicode.satisfies isdecimal r password = true) /\
  (forall r,
     Unicode.satisfies isdecimal r password = false ->
     (forall r', Spec.rank r' < Spec.rank r ->
                 Unicode.satisfies isdecimal r' password = true) ->
     Unicode.validate_password isdecimal password = (false, Spec.reason r)).
Proof.
  split.
  - rewrite <- unicode_first_violated_none, unicode_validate_password_by_rules.
    destruct (Unicode.first_violated isdecimal password); simpl;
      split; congruence.
  - intros r Hr Hbefore.
    rewrite unicode_validate_password_by_rules.
    now rewrite (unicode_first_violated_some _ _ Hr Hbefore).
Qed.

End UnicodePolicy.

(** The table of Unicode 14.0 has no decimal digit below U+0100 other than
    [0] to [9]. *)
Lemma isdecimal_14_ascii : Unicode.ascii_digits_only Unicode.isdecimal_14.
Proof.
  assert (H : forallb
                (fun k => Bool.eqb (Unicode.isdecimal_14 (N.of_nat k))
                            ((48 <=? N.of_nat k) && (N.of_nat k <=? 57))%N)
                (seq 0 256) = true) by (vm_compute; reflexivity).
  intros c Hc. rewrite forallb_forall in H.
  specialize (H (N.to_nat c)). rewrite N2Nat.id in H.
  apply Bool.eqb_prop, H, in_seq. lia.
Qed.

(** *** The strings up to U+00FF are a part of it *)

Lemma ord_eqb c d : N.eqb (PyStr.ord c) (PyStr.ord d) = Ascii.eqb c d.
Proof.
  apply eq_true_iff_eq. rewrite N.eqb_eq, Ascii.eqb_eq. unfold PyStr.ord.
  split; [|congruence].
  intros H. rewrite <- (ascii_N_embedding c), <- (ascii_N_embedding d).
  now rewrite H.
Qed.

Lemma listed_mem t c : Unicode.listed t (PyStr.ord c) = PyStr.mem c t.
Proof.
  unfold Unicode.listed, Unicode.of_string.
  induction t as [|d t IH]; [reflexivity|].
  cbn [list_ascii_of_string map existsb PyStr.mem].
  now rewrite ord_eqb, IH.
Qed.

Lemma existsb_of_string (f : N -> bool) (p : ascii -> bool) s :
  (forall c, f (PyStr.ord c) = p c) ->
  existsb f (Unicode.of_string s) = PyStr.any p s.
Proof.
  intros H. unfold Unicode.of_string.
  induction s as [|c s IH]; [reflexivity|].
  cbn [list_ascii_of_string map existsb PyStr.any]. now rewrite H, IH.
Qed.

Lemma length_of_string s :
  List.length (Unicode.of_string s) = String.length s.
Proof.
  unfold Unicode.of_string. induction s as [|c s IH]; [reflexivity|].
  cbn [list_ascii_of_string map List.length String.length]. now rewrite IH.
Qed.

(** On a password of code points up to U+00FF, and with a database that has
    only the ASCII digits there, the two embeddings of [validate_password]
    agree. *)
Lemma validate_password_of_string isdecimal s :
  Unicode.ascii_digits_only isdecimal ->
  Unicode.validate_password isdecimal (Unicode.of_string s)
  = validate_password s.
Proof.
  intros Hd. unfold Unicode.validate_password, validate_password.
  rewrite length_of_string, !re_search_existsb, !re_search_Cls.
  rewrite (existsb_of_string _ Re.upper) by reflexivity.
  rewrite (existsb_of_string _ Re.lower) by reflexivity.
  rewrite (existsb_of_string _ Re.digit).
  2:{ intros c. cbn [Unicode.in_charset]. rewrite Hd; [reflexivity|].
      apply N_ascii_bounded. }
  rewrite (existsb_of_string _ special) by (intros c; apply listed_mem).
  reflexivity.
Qed.

(** A password can pass with no ASCII digit in it. *)
Example validate_password_arabic_digit :
  Unicode.validate_password Unicode.isdecimal_14 Unicode.arabic_digit_password
  = (true, "Password is valid")
  /\ existsb (Unicode.listed Spec.ascii_digits) Unicode.arabic_digit_password
     = false.
Proof. split; reflexivity. Qed.

(** *** Trimming *)

Lemma append_nil_r (s : string) : s ++ "" = s.
Proof. induction s; simpl; congruence. Qed.

Lemma append_assoc (a b c : string) : (a ++ b) ++ c = a ++ (b ++ c).
Proof. induction a; simpl; congruence. Qed.

Lemma rev_append a b : Spec.rev (a ++ b) = Spec.rev b ++ Spec.rev a.
Proof.
  induction a as [|c a IH]; simpl.
  - now rewrite append_nil_r.
  - now rewrite IH, append_assoc.
Qed.

Lemma all_append p a b : PyStr.all p (a ++ b) = PyStr.all p a && PyStr.all p b.
Proof.
  induction a as [|c a IH]; simpl; [reflexivity|].
  now rewrite IH, andb_assoc.
Qed.

Lemma any_append p a b : PyStr.any p (a ++ b) = PyStr.any p a || PyStr.any p b.
Proof.
  induction a as [|c a IH]; simpl; [reflexivity|].
  now rewrite IH, orb_assoc.
Qed.

Lemma all_rev p s : PyStr.all p (Spec.rev s) = PyStr.all p s.
Proof.
  induction s as [|c s IH]; simpl; [reflexivity|].
  rewrite all_append, IH. simpl. rewrite andb_true_r. apply andb_comm.
Qed.

Lemma lstrip_drop_space s : PyStr.lstrip s = Spec.drop_space s.
Proof. induction s as [|c s IH]; simpl; [reflexivity|]. now rewrite IH. Qed.

Lemma drop_space_snoc t c :
  Spec.drop_space (t ++ String c "") =
  if PyStr.all PyStr.isspace t
  then (if PyStr.isspace c then "" else String c "")
  else Spec.drop_space t ++ String c "".
Proof.
  induction t as [|d t IH]; simpl.
  - reflexivity.
  - destruct (PyStr.isspace d); simpl; [exact IH | reflexivity].
Qed.

Lemma rstrip_empty s :
  PyStr.is_empty (PyStr.rstrip s) = PyStr.all PyStr.isspace s.
Proof.
  induction s as [|c s IH]; [reflexivity|].
  cbn [PyStr.rstrip PyStr.all]. cbv zeta.
  rewrite IH.
  destruct (PyStr.all PyStr.isspace s), (PyStr.isspace c); reflexivity.
Qed.

Lemma is_empty_true s : PyStr.is_empty s = true -> s = "".
Proof. now destruct s. Qed.

Lemma rstrip_by_reversal s :
  PyStr.rstrip s = Spec.rev (Spec.drop_space (Spec.rev s)).
Proof.
  induction s as [|c s IH]; [reflexivity|].
  cbn [PyStr.rstrip Spec.rev]. cbv zeta.
  rewrite drop_space_snoc, all_rev, rstrip_empty.
  destruct (PyStr.all PyStr.isspace s) eqn:Hall.
  - rewrite <- rstrip_empty in Hall. apply is_empty_true in Hall.
    rewrite Hall. destruct (PyStr.isspace c); reflexivity.
  - cbn [andb]. rewrite rev_append. simpl. now rewrite IH.
Qed.

Lemma strip_trim s : PyStr.strip s = Spec.trim s.
Proof.
  unfold PyStr.strip, Spec.trim.
  rewrite rstrip_by_reversal. do 3 f_equal.
Qed.

(** *** Escaping *)

Lemma expand_append f a b :
  Spec.expand f (a ++ b) = Spec.expand f a ++ Spec.expand f b.
Proof.
  induction a as [|c a IH]; simpl; [reflexivity|].
  now rewrite IH, append_assoc.
Qed.

Lemma expand_expand f g s :
  Spec.expand f (Spec.expand g s) = Spec.expand (fun c => Spec.expand f (g c)) s.
Proof.
  induction s as [|c s IH]; simpl; [reflexivity|].
  now rewrite expand_append, IH.
Qed.

Lemma expand_ext f g s :
  (forall c, f c = g c) -> Spec.expand f s = Spec.expand g s.
Proof.
  intros E; induction s as [|c s IH]; simpl; [reflexivity|].
  now rewrite E, IH.
Qed.

Lemma prefix_char c d s :
  prefix (String c "") (String d s) = Ascii.eqb d c.
Proof.
  simpl. destruct (ascii_dec c d) as [->|N].
  - rewrite Ascii.eqb_refl. now destruct s.
  - symmetry. apply Ascii.eqb_neq. congruence.
Qed.

(** Replacing one character is a character-wise substitution. *)
Lemma replace_char c new s :
  PyStr.replace (String c "") new s =
  Spec.expand (fun d => if Ascii.eqb d c then new else String d "") s.
Proof.
  unfold PyStr.replace. cbn [PyStr.is_empty].
  induction s as [|d s IH]; [reflexivity|].
  cbn [PyStr.replace_scan Spec.expand].
  rewrite prefix_char. cbn [String.length Nat.sub].
  destruct (Ascii.eqb d c); now rewrite IH.
Qed.

Lemma html_escape_charwise s : html_escape s = Spec.escape s.
Proof.
  unfold html_escape, Spec.escape. cbv zeta.
  rewrite !replace_char, !expand_expand.
  apply expand_ext. intros c. each_char c; reflexivity.
Qed.

(** *** Removing a substring *)

Lemma replace_scan_skip old new k s :
  PyStr.replace_scan old new k s = PyStr.replace_scan old new 0 (Spec.drop k s).
Proof.
  revert k; induction s as [|c s IH]; intros [|k]; try reflexivity.
  cbn [PyStr.replace_scan Spec.drop]. apply IH.
Qed.

Lemma length_drop k s : String.length (Spec.drop k s) <= String.length s.
Proof.
  revert s; induction k as [|k IH]; intros [|c s]; simpl; try lia.
  specialize (IH s). lia.
Qed.

Lemma replace_scan_remove sub n s :
  sub <> "" -> String.length s <= n ->
  PyStr.replace_scan sub "" 0 s = Spec.remove_fuel n sub s.
Proof.
  intros Hsub. revert s; induction n as [|n IH]; intros [|c s] Hlen;
    try reflexivity; simpl in Hlen; try lia.
  cbn [PyStr.replace_scan Spec.remove_fuel].
  destruct (prefix sub (String c s)).
  - destruct sub as [|a sub]; [congruence|].
    cbn [String.length Nat.sub Spec.drop append].
    rewrite Nat.sub_0_r, replace_scan_skip.
    apply IH. pose proof (length_drop (String.length sub) s). lia.
  - f_equal. apply IH. lia.
Qed.

Lemma replace_remove sub s :
  sub <> "" -> PyStr.replace sub "" s = Spec.remove sub s.
Proof.
  intros Hsub. unfold PyStr.replace, Spec.remove.
  destruct sub as [|a sub]; [congruence|]. cbn [PyStr.is_empty].
  now apply replace_scan_remove.
Qed.

(** *** sanitize_input *)

Lemma sanitize_input_falsy v : truthy v = false -> sanitize_input v = "".
Proof. intros H. unfold sanitize_input. now rewrite H. Qed.

Lemma sanitize_input_truthy v :
  truthy v = true -> sanitize_input v = Spec.sanitize (py_str v).
Proof.
  intros H. unfold sanitize_input, Spec.sanitize. rewrite H. cbn [negb].
  cbv zeta. rewrite strip_trim, html_escape_charwise.
  unfold dangerous_chars, Spec.denylist. cbn [fold_left].
  now rewrite !replace_remove by discriminate.
Qed.

Lemma sanitize_input_str s : sanitize_input (PStr s) = Spec.sanitize s.
Proof.
  destruct s as [|c s]; [reflexivity|].
  now apply sanitize_input_truthy.
Qed.

(** C5. On every string [sanitize_input] is the pipeline of the
    specification: trim the white space at both ends, escape the five
    reserved characters, then remove the occurrences of the denylist entries
    [;], [--], [/*], [*/], [xp_], [sp_] one entry after the other; and its
    output on the script payload holds no raw [<script>]. *)
Theorem sanitize_input_pipeline :
  (forall s : string, sanitize_input (PStr s) = Spec.sanitize s) /\
  PyStr.contains "<script>"
    (sanitize_input (PStr "<script>alert(1)</script>")) = false.
Proof. split; [exact sanitize_input_str | reflexivity]. Qed.

(** C8. On the empty string and on [None] the result is the empty string. *)
Theorem sanitize_input_empty :
  sanitize_input (PStr "") = "" /\ sanitize_input PNone = "".
Proof. split; reflexivity. Qed.

(** *** Which characters survive sanitisation *)

Lemma mem_append c a b : PyStr.mem c (a ++ b) = PyStr.mem c a || PyStr.mem c b.
Proof.
  induction a as [|d a IH]; simpl; [reflexivity|].
  now rewrite IH, orb_assoc.
Qed.

Lemma mem_expand c f s :
  PyStr.mem c (Spec.expand f s) = PyStr.any (fun d => PyStr.mem c (f d)) s.
Proof.
  induction s as [|d s IH]; simpl; [reflexivity|].
  now rewrite mem_append, IH.
Qed.

Lemma any_false p s : (forall c, p c = false) -> PyStr.any p s = false.
Proof.
  intros E; induction s as [|c s IH]; simpl; [reflexivity|].
  now rewrite E, IH.
Qed.

Lemma any_rev p s : PyStr.any p (Spec.rev s) = PyStr.any p s.
Proof.
  induction s as [|c s IH]; simpl; [reflexivity|].
  rewrite any_append, IH. simpl. rewrite orb_false_r. apply orb_comm.
Qed.

Lemma any_drop_space p s :
  (forall c, p c && PyStr.isspace c = false) ->
  PyStr.any p (Spec.drop_space s) = PyStr.any p s.
Proof.
  intros E; induction s as [|c s IH]; simpl; [reflexivity|].
  specialize (E c). destruct (PyStr.isspace c); simpl; [|reflexivity].
  rewrite andb_true_r in E. now rewrite E, IH.
Qed.

Lemma any_trim p s :
  (forall c, p c && PyStr.isspace c = false) ->
  PyStr.any p (Spec.trim s) = PyStr.any p s.
Proof.
  intros E. unfold Spec.trim.
  now rewrite any_rev, any_drop_space, any_rev, any_drop_space.
Qed.

Lemma prefix_split a s :
  prefix a s = true -> s = a ++ Spec.drop (String.length a) s.
Proof.
  revert s; induction a as [|c a IH]; intros s H; [reflexivity|].
  destruct s as [|d s]; [discriminate|].
  simpl in H. destruct (ascii_dec c d) as [->|]; [|discriminate].
  simpl. f_equal. now apply IH.
Qed.

Lemma mem_drop c k s : PyStr.mem c (Spec.drop k s) = true -> PyStr.mem c s = true.
Proof.
  revert s; induction k as [|k IH]; intros [|d s] H; simpl in *; try assumption.
  rewrite (IH s H). apply orb_true_r.
Qed.

(** Removal only deletes characters ... *)
Lemma mem_remove_fuel c n sub s :
  PyStr.mem c (Spec.remove_fuel n sub s) = true -> PyStr.mem c s = true.
Proof.
  revert s; induction n as [|n IH]; intros [|d s] H; simpl in *; try assumption.
  destruct (match sub with
            | "" => true
            | String a sub' => if ascii_dec a d then prefix sub' s else false
            end).
  - apply IH, mem_drop in H. exact H.
  - simpl in H. apply orb_true_iff in H. destruct H as [H|H].
    + now rewrite H.
    + rewrite (IH s H). apply orb_true_r.
Qed.

Lemma mem_remove c sub s :
  PyStr.mem c s = false -> PyStr.mem c (Spec.remove sub s) = false.
Proof.
  intros H. destruct (PyStr.mem c (Spec.remove sub s)) eqn:E; [|reflexivity].
  apply mem_remove_fuel in E. congruence.
Qed.

(** ... and deletes none that does not occur in the removed substring. *)
Lemma mem_remove_fuel_keep c n sub s :
  PyStr.mem c sub = false ->
  PyStr.mem c (Spec.remove_fuel n sub s) = PyStr.mem c s.
Proof.
  intros Hsub. revert s; induction n as [|n IH]; intros [|d s]; try reflexivity.
  cbn [Spec.remove_fuel].
  destruct (prefix sub (String d s)) eqn:Hp.
  - rewrite IH. rewrite (prefix_split _ _ Hp) at 2.
    now rewrite mem_append, Hsub.
  - cbn [PyStr.mem]. now rewrite IH.
Qed.

Lemma mem_remove_keep c sub s :
  PyStr.mem c sub = false -> PyStr.mem c (Spec.remove sub s) = PyStr.mem c s.
Proof. intros H. now apply mem_remove_fuel_keep. Qed.

Lemma no_semicolon_after_removal s : PyStr.mem ";" (Spec.remove ";" s) = false.
Proof.
  rewrite <- replace_remove by discriminate.
  rewrite replace_char, mem_expand.
  apply any_false. intros c. each_char c; reflexivity.
Qed.

Lemma sanitize_no_semicolon s : PyStr.mem ";" (Spec.sanitize s) = false.
Proof.
  unfold Spec.sanitize, Spec.denylist. cbn [fold_left].
  do 5 apply mem_remove. apply no_semicolon_after_removal.
Qed.

Lemma sanitize_ampersand s :
  PyStr.mem "&" (Spec.sanitize s) = PyStr.any Spec.reserved s.
Proof.
  unfold Spec.sanitize, Spec.denylist. cbn [fold_left].
  rewrite !mem_remove_keep by reflexivity.
  unfold Spec.escape. rewrite mem_expand.
  rewrite (any_ext _ Spec.reserved) by (intros c; each_char c; reflexivity).
  apply any_trim. intros c; each_char c; reflexivity.
Qed.

Lemma prefix_mem c t s :
  prefix t s = true -> PyStr.mem c t = true -> PyStr.mem c s = true.
Proof.
  intros Hp Hm. rewrite (prefix_split _ _ Hp), mem_append, Hm. reflexivity.
Qed.

(** Text without a semicolon is well escaped only if it has no [&]. *)
Lemma well_escaped_without_semicolon s :
  PyStr.mem ";" s = false -> Spec.well_escaped s = negb (PyStr.mem "&" s).
Proof.
  induction s as [|c s IH]; intros H; [reflexivity|].
  cbn [PyStr.mem] in H. apply orb_false_iff in H. destruct H as [Hc Hs].
  cbn [Spec.well_escaped PyStr.mem]. rewrite (IH Hs).
  rewrite (Ascii.eqb_sym c "&").
  destruct (Ascii.eqb "&" c); cbn [orb negb]; [|reflexivity].
  rewrite andb_false_iff. left.
  apply not_true_is_false. intros E.
  apply existsb_exists in E. destruct E as [t [Ht Hp]].
  assert (PyStr.mem ";" t = true) as Hsemi
    by (simpl in Ht; intuition (subst; reflexivity)).
  pose proof (prefix_mem _ _ _ Hp Hsemi). congruence.
Qed.

(** C9. The output of [sanitize_input] never holds a semicolon; in
    particular [sanitize_input "&"] is [&amp] without its terminator; and on
    a string the output is well-formed escaped text exactly when the input
    has none of the five reserved characters. *)
Theorem sanitize_input_strips_entity_terminators :
  (forall v : pyval, PyStr.mem ";" (sanitize_input v) = false) /\
  sanitize_input (PStr "&") = "&amp" /\
  (forall s : string,
     Spec.well_escaped (sanitize_input (PStr s)) = negb (PyStr.any Spec.reserved s)).
Proof.
  split; [|split].
  - intros v. destruct (truthy v) eqn:T.
    + rewrite (sanitize_input_truthy _ T). apply sanitize_no_semicolon.
    + now rewrite (sanitize_input_falsy _ T).
  - reflexivity.
  - intros s. rewrite sanitize_input_str.
    rewrite well_escaped_without_semicolon by apply sanitize_no_semicolon.
    now rewrite sanitize_ampersand.
Qed.

(* ===================================================================== *)
(** ** The matcher against the meaning of patterns *)
(* ===================================================================== *)

(** A match either consumes nothing and keeps the position, or consumes
    input and leaves the start of the string. *)
Lemma matches_progress b s r b' s' :
  Re.matches b s r b' s' ->
  (b' = b /\ s' = s) \/ (b' = false /\ String.length s' < String.length s).
Proof.
  induction 1 as [ | | b s r1 r2 b1 s1 b2 s2 _ IH1 _ IH2 | | | |
                   b s r b1 s1 b2 s2 _ IH1 _ IH2 | | ];
    try (left; split; reflexivity); try assumption.
  - right. split; [reflexivity | simpl; lia].
  - destruct IH1 as [[-> ->] | [-> L1]]; [exact IH2|].
    destruct IH2 as [[-> ->] | [-> L2]]; right; split; try reflexivity; lia.
  - destruct IH1 as [[-> ->] | [-> L1]]; [exact IH2|].
    destruct IH2 as [[-> ->] | [-> L2]]; right; split; try reflexivity; lia.
Qed.

Lemma matches_still b s r b' s' :
  Re.matches b s r b' s' -> String.length s <= String.length s' ->
  b' = b /\ s' = s.
Proof.
  intros H L. destruct (matches_progress _ _ _ _ _ H) as [E | [_ L']];
    [exact E | lia].
Qed.

Lemma nullable_matches b s r :
  Re.nullable b s r = true -> Re.matches b s r b s.
Proof.
  induction r; simpl; intros H; try discriminate.
  - constructor.
  - apply andb_true_iff in H. destruct H. econstructor; eauto.
  - apply orb_true_iff in H. destruct H; [apply Re.MAltL | apply Re.MAltR]; auto.
  - constructor.
  - subst b. constructor.
  - now constructor.
Qed.

Lemma matches_nullable b s r b' s' :
  Re.matches b s r b' s' -> String.length s <= String.length s' ->
  Re.nullable b s r = true.
Proof.
  induction 1 as [ | | b s r1 r2 b1 s1 b2 s2 H1 IH1 H2 IH2 | | | |
                   | | ]; intros L; simpl; try reflexivity; auto.
  - simpl in L. lia.
  - destruct (matches_progress _ _ _ _ _ H1) as [[-> ->] | [_ L1]].
    + now rewrite IH1, IH2.
    + destruct (matches_progress _ _ _ _ _ H2) as [[_ ->] | [_ L2]]; lia.
  - rewrite IHmatches by assumption. reflexivity.
  - rewrite IHmatches by assumption. apply orb_true_r.
Qed.

Lemma matches_Void b s b' s' : ~ Re.matches b s Re.Void b' s'.
Proof. intros H. inversion H. Qed.

Lemma deriv_sound r : forall b c s b' s',
  Re.matches false s (Re.deriv b (String c s) c r) b' s' ->
  Re.matches b (String c s) r b' s'.
Proof.
  induction r as [ | | p | r1 IH1 r2 IH2 | r1 IH1 r2 IH2 | r IH | | ];
    intros b c s b' s' H; cbn [Re.deriv] in H;
    try (now apply matches_Void in H).
  - destruct (p c) eqn:Hp; [|now apply matches_Void in H].
    inversion H; subst. now constructor.
  - inversion H as [ | | | ? ? ? ? ? ? HL | ? ? ? ? ? ? HR | | | | ]; subst.
    + inversion HL; subst. econstructor; [apply IH1|]; eassumption.
    + destruct (Re.nullable b (String c s) r1) eqn:Hn;
        [|now apply matches_Void in HR].
      econstructor; [apply nullable_matches; exact Hn | apply IH2; exact HR].
  - inversion H; subst; [apply Re.MAltL | apply Re.MAltR]; auto.
  - inversion H; subst. eapply Re.MStarCons; [apply IH|]; eassumption.
Qed.

Lemma deriv_complete b s0 r b' s' :
  Re.matches b s0 r b' s' ->
  forall c t, s0 = String c t -> String.length s' < String.length s0 ->
  Re.matches false t (Re.deriv b s0 c r) b' s'.
Proof.
  induction 1 as [ | b p c0 s1 Hp | b s1 r1 r2 b1 s2 b2 s3 H1 IH1 H2 IH2
                   | | | | b s1 r b1 s2 b2 s3 H1 IH1 H2 IH2 | | ];
    intros c t E L; cbn [Re.deriv]; try lia.
  - injection E as -> ->. rewrite Hp. constructor.
  - destruct (matches_progress _ _ _ _ _ H1) as [[-> ->] | [-> L1]].
    + apply Re.MAltR.
      rewrite (matches_nullable _ _ _ _ _ H1) by lia.
      now apply IH2.
    + apply Re.MAltL. econstructor; [now apply IH1 | exact H2].
  - apply Re.MAltL. now apply IHmatches.
  - apply Re.MAltR. now apply IHmatches.
  - destruct (matches_progress _ _ _ _ _ H1) as [[-> ->] | [-> L1]].
    + now apply IH2.
    + econstructor; [now apply IH1 | exact H2].
Qed.

(** [match_at] decides whether a prefix of the input matches. *)
Lemma match_at_matches s : forall b r,
  Re.match_at b r s = true <-> exists b' s', Re.matches b s r b' s'.
Proof.
  induction s as [|c s IH]; intros b r; cbn [Re.match_at].
  - rewrite orb_false_r. split.
    + intros H. exists b, "". now apply nullable_matches.
    + intros (b' & s' & H). eapply matches_nullable; [exact H|].
      destruct (matches_progress _ _ _ _ _ H) as [[_ ->] | [_ L]]; simpl in *; lia.
  - rewrite orb_true_iff, IH. split.
    + intros [H | (b' & s' & H)].
      * exists b, (String c s). now apply nullable_matches.
      * exists b', s'. now apply deriv_sound.
    + intros (b' & s' & H).
      destruct (matches_progress _ _ _ _ _ H) as [[-> ->] | [-> L]].
      * left. eapply matches_nullable; [exact H | lia].
      * right. exists false, s'. now eapply deriv_complete.
Qed.

(** *** The e-mail pattern *)

Lemma cls_inv b s p b' s' :
  Re.matches b s (Re.Cls p) b' s' ->
  exists c, s = String c s' /\ p c = true /\ b' = false.
Proof. intros H. inversion H; subst. eauto. Qed.

Lemma star_cls_inv p b s b' s' :
  Re.matches b s (Re.Star (Re.Cls p)) b' s' ->
  exists w, s = w ++ s' /\ PyStr.all p w = true.
Proof.
  intros H. remember (Re.Star (Re.Cls p)) as r eqn:E.
  induction H as [ | | | | | b s r | b s r b1 s1 b2 s2 H1 _ H2 IH2 | | ];
    try discriminate.
  - now exists "".
  - injection E as ->. destruct (IH2 eq_refl) as (w & -> & Hw).
    apply cls_inv in H1. destruct H1 as (c & -> & Hc & _).
    exists (String c w). simpl. now rewrite Hc, Hw.
Qed.

Lemma star_cls_intro p w s b :
  PyStr.all p w = true ->
  exists b', Re.matches b (w ++ s) (Re.Star (Re.Cls p)) b' s.
Proof.
  revert b; induction w as [|c w IH]; intros b H; simpl in *.
  - exists b. constructor.
  - apply andb_true_iff in H. destruct H as [Hc Hw].
    destruct (IH false Hw) as (b' & M). exists b'.
    eapply Re.MStarCons; [now constructor | exact M].
Qed.

Ltac split_cat :=
  repeat match goal with
  | H : Re.matches _ _ (Re.Cat _ _) _ _ |- _ => inversion H; subst; clear H
  end.

Lemma email_pattern_inv s b' s' :
  Re.matches true s email_pattern b' s' ->
  exists l d t,
    s = l ++ "@" ++ d ++ "." ++ t ++ s' /\
    PyStr.is_empty l = false /\ PyStr.all local_char l = true /\
    PyStr.is_empty d = false /\ PyStr.all domain_char d = true /\
    2 <= String.length t /\ PyStr.all tld_char t = true /\
    Re.at_eol s' = true.
Proof.
  unfold email_pattern, Re.Plus, Re.Chr. cbn [Re.AtLeast]. intros H.
  split_cat.
  repeat match goal with
  | H : Re.matches _ _ (Re.Cls _) _ _ |- _ =>
      apply cls_inv in H; destruct H as (? & -> & ? & ->)
  | H : Re.matches _ _ (Re.Star (Re.Cls _)) _ _ |- _ =>
      apply star_cls_inv in H; destruct H as (? & -> & ?)
  | H : Re.matches _ _ Re.Bol _ _ |- _ => inversion H; subst; clear H
  | H : Re.matches _ _ Re.Eol _ _ |- _ => inversion H; subst; clear H
  end.
  apply Ascii.eqb_eq in H5, H3. subst.
  exists (String x x5), (String x0 x6), (String x2 (String x1 x7)).
  simpl. rewrite H, H0, H1, H2, H6, H7, H8.
  repeat split; try reflexivity; try assumption; lia.
Qed.

Lemma email_pattern_intro l d t s' :
  PyStr.is_empty l = false -> PyStr.all local_char l = true ->
  PyStr.is_empty d = false -> PyStr.all domain_char d = true ->
  2 <= String.length t -> PyStr.all tld_char t = true ->
  Re.at_eol s' = true ->
  exists b', Re.matches true (l ++ "@" ++ d ++ "." ++ t ++ s') email_pattern b' s'.
Proof.
  intros Hl Hla Hd Hda Ht Hta He.
  destruct l as [|l1 l]; [discriminate|].
  destruct d as [|d1 d]; [discriminate|].
  destruct t as [|t1 [|t2 t]]; simpl in Ht; try lia.
  simpl in Hla, Hda, Hta.
  apply andb_true_iff in Hla, Hda, Hta.
  destruct Hla as [Hl1 Hla], Hda as [Hd1 Hda], Hta as [Ht1 Hta].
  apply andb_true_iff in Hta. destruct Hta as [Ht2 Hta].
  destruct (star_cls_intro local_char l
              ("@" ++ String d1 d ++ "." ++ String t1 (String t2 t) ++ s')
              false Hla) as (b1 & M1).
  destruct (star_cls_intro domain_char d
              ("." ++ String t1 (String t2 t) ++ s') false Hda) as (b2 & M2).
  destruct (star_cls_intro tld_char t s' false Hta) as (b3 & M3).
  exists b3. unfold email_pattern, Re.Plus, Re.Chr. cbn [Re.AtLeast].
  eapply Re.MCat; [constructor|].
  eapply Re.MCat.
  { eapply Re.MCat; [constructor; exact Hl1 | exact M1]. }
  eapply Re.MCat; [constructor; apply Ascii.eqb_refl|].
  eapply Re.MCat.
  { eapply Re.MCat; [constructor; exact Hd1 | exact M2]. }
  eapply Re.MCat; [constructor; apply Ascii.eqb_refl|].
  eapply Re.MCat.
  { eapply Re.MCat; [constructor; exact Ht1|].
    eapply Re.MCat; [constructor; exact Ht2 | exact M3]. }
  now constructor.
Qed.

(** *** The shape of an address *)

Lemma local_char_enum c : local_char c = Spec.local_ok c.
Proof. each_char c; reflexivity. Qed.

Lemma domain_char_enum c : domain_char c = Spec.domain_ok c.
Proof. each_char c; reflexivity. Qed.

Lemma tld_char_enum c : tld_char c = Spec.is_letter c.
Proof. each_char c; reflexivity. Qed.

Lemma all_not_mem p c s :
  p c = false -> PyStr.all p s = true -> PyStr.mem c s = false.
Proof.
  intros Hc. induction s as [|d s IH]; simpl; [reflexivity|].
  intros H. apply andb_true_iff in H. destruct H as [Hd Hs].
  rewrite (IH Hs), orb_false_r.
  apply Ascii.eqb_neq. intros ->. congruence.
Qed.

Lemma cut_first_append c l rest :
  PyStr.mem c l = false ->
  Spec.cut_first c (l ++ String c rest) = Some (l, rest).
Proof.
  induction l as [|d l IH]; simpl.
  - now rewrite Ascii.eqb_refl.
  - intros H. apply orb_false_iff in H. destruct H as [Hd Hl].
    rewrite Ascii.eqb_sym, Hd. now rewrite (IH Hl).
Qed.

Lemma cut_first_some c s a b :
  Spec.cut_first c s = Some (a, b) -> s = a ++ String c b.
Proof.
  revert a; induction s as [|d s IH]; intros a; simpl; [discriminate|].
  destruct (Ascii.eqb d c) eqn:E.
  - apply Ascii.eqb_eq in E. subst. now intros [= <- <-].
  - destruct (Spec.cut_first c s) as [[a' b']|]; [|discriminate].
    intros [= <- <-]. simpl. f_equal. now apply IH.
Qed.

Lemma cut_last_none c s :
  PyStr.mem c s = false -> Spec.cut_last c s = None.
Proof.
  induction s as [|d s IH]; simpl; [reflexivity|].
  intros H. apply orb_false_iff in H. destruct H as [Hd Hs].
  rewrite (IH Hs), Ascii.eqb_sym. now rewrite Hd.
Qed.

Lemma cut_last_append c d t :
  PyStr.mem c t = false ->
  Spec.cut_last c (d ++ String c t) = Some (d, t).
Proof.
  intros H. induction d as [|x d IH]; simpl.
  - now rewrite (cut_last_none _ _ H), Ascii.eqb_refl.
  - now rewrite IH.
Qed.

Lemma cut_last_some c s a b :
  Spec.cut_last c s = Some (a, b) -> s = a ++ String c b.
Proof.
  revert a; induction s as [|d s IH]; intros a; simpl; [discriminate|].
  destruct (Spec.cut_last c s) as [[a' b']|].
  - intros [= <- <-]. simpl. f_equal. now apply IH.
  - destruct (Ascii.eqb d c) eqn:E; [|discriminate].
    apply Ascii.eqb_eq in E. subst. now intros [= <- <-].
Qed.

Lemma email_shape_intro l d t :
  PyStr.is_empty l = false -> PyStr.all local_char l = true ->
  PyStr.is_empty d = false -> PyStr.all domain_char d = true ->
  2 <= String.length t -> PyStr.all tld_char t = true ->
  Spec.email_shape (l ++ "@" ++ d ++ "." ++ t) = true.
Proof.
  intros Hl Hla Hd Hda Ht Hta. unfold Spec.email_shape.
  change (l ++ "@" ++ d ++ "." ++ t) with (l ++ String "@" (d ++ String "." t)).
  rewrite cut_first_append by (now apply (all_not_mem local_char)).
  rewrite cut_last_append by (now apply (all_not_mem tld_char)).
  rewrite Hl, Hd.
  rewrite <- (all_ext _ _ _ local_char_enum), Hla.
  rewrite <- (all_ext _ _ _ domain_char_enum), Hda.
  rewrite <- (all_ext _ _ _ tld_char_enum), Hta.
  apply Nat.leb_le in Ht. now rewrite Ht.
Qed.

Lemma email_shape_elim s :
  Spec.email_shape s = true ->
  exists l d t,
    s = l ++ "@" ++ d ++ "." ++ t /\
    PyStr.is_empty l = false /\ PyStr.all local_char l = true /\
    PyStr.is_empty d = false /\ PyStr.all domain_char d = true /\
    2 <= String.length t /\ PyStr.all tld_char t = true.
Proof.
  unfold Spec.email_shape.
  destruct (Spec.cut_first "@" s) as [[l rest]|] eqn:E1; [|discriminate].
  destruct (Spec.cut_last "." rest) as [[d t]|] eqn:E2; [|discriminate].
  apply cut_first_some in E1. apply cut_last_some in E2. subst.
  rewrite !andb_true_iff, !negb_true_iff, Nat.leb_le.
  rewrite <- (all_ext _ _ _ local_char_enum).
  rewrite <- (all_ext _ _ _ domain_char_enum).
  rewrite <- (all_ext _ _ _ tld_char_enum).
  intros [[[[[? ?] ?] ?] ?] ?]. exists l, d, t. simpl. tauto.
Qed.

Lemma chop_newline_some s t :
  Spec.chop_newline s = Some t <-> s = t ++ String PyStr.newline "".
Proof.
  revert t; induction s as [|c s IH]; intros t.
  - simpl. split; [discriminate|]. now destruct t.
  - cbn [Spec.chop_newline]. destruct s as [|c' s].
    + destruct (Ascii.eqb c PyStr.newline) eqn:E.
      * apply Ascii.eqb_eq in E. subst. split.
        -- now intros [= <-].
        -- destruct t as [|x [|y t]]; simpl; intros [= ]; try reflexivity.
           all: try (now destruct t).
      * split; [discriminate|].
        destruct t as [|x [|y t]]; simpl; intros [= ]; subst.
        -- now rewrite Ascii.eqb_refl in E.
    + destruct (Spec.chop_newline (String c' s)) as [t'|] eqn:E.
      * split.
        -- intros [= <-]. simpl. f_equal. now apply IH.
        -- destruct t as [|x t]; simpl.
           ++ intros [= ].
           ++ intros [= -> H]. apply IH in H. congruence.
      * split; [discriminate|].
        destruct t as [|x t]; simpl.
        -- intros [= ].
        -- intros [= -> H]. apply IH in H. discriminate.
Qed.

Lemma at_eol_cases s :
  Re.at_eol s = true <-> s = "" \/ s = String PyStr.newline "".
Proof.
  destruct s as [|c [|d s]]; simpl.
  - tauto.
  - rewrite Ascii.eqb_eq. split; [intros ->; now right|].
    intros [H|H]; [discriminate | congruence].
  - split; [discriminate|]. intros [H|H]; discriminate.
Qed.

Lemma append_5 (l d t s' : string) :
  l ++ "@" ++ d ++ "." ++ t ++ s' = (l ++ "@" ++ d ++ "." ++ t) ++ s'.
Proof. now rewrite !append_assoc. Qed.

(** What [validate_email] accepts: the addresses of the documented shape,
    and those followed by one line feed. *)
Lemma validate_email_language s :
  validate_email s = Spec.email_shape_or_newline s.
Proof.
  apply eq_true_iff_eq. unfold validate_email, Re.re_match.
  rewrite match_at_matches. unfold Spec.email_shape_or_newline.
  rewrite orb_true_iff. split.
  - intros (b' & s' & M). apply email_pattern_inv in M.
    destruct M as (l & d & t & -> & Hl & Hla & Hd & Hda & Ht & Hta & He).
    pose proof (email_shape_intro l d t Hl Hla Hd Hda Ht Hta) as Hshape.
    rewrite append_5. apply at_eol_cases in He. destruct He as [-> | ->].
    + left. now rewrite append_nil_r.
    + right. now rewrite (proj2 (chop_newline_some _ _) eq_refl).
  - assert (forall core s', Spec.email_shape core = true -> Re.at_eol s' = true ->
              exists b' s'', Re.matches true (core ++ s') email_pattern b' s'')
      as Hbuild.
    { intros core s' Hc He. apply email_shape_elim in Hc.
      destruct Hc as (l & d & t & -> & Hl & Hla & Hd & Hda & Ht & Hta).
      rewrite <- append_5.
      destruct (email_pattern_intro l d t s' Hl Hla Hd Hda Ht Hta He) as (b' & M).
      now exists b', s'. }
    intros [H | H].
    + rewrite <- (append_nil_r s). now apply Hbuild.
    + destruct (Spec.chop_newline s) as [t|] eqn:E; [|discriminate].
      apply chop_newline_some in E. subst s. now apply Hbuild.
Qed.

(** *** The first piece of a split *)

Lemma split_scan_first cur s :
  hd "" (PyStr.split_scan "@" 0 cur s) = cur ++ local_part s.
Proof.
  unfold local_part.
  revert cur; induction s as [|c s IH]; intros cur.
  - simpl. now rewrite append_nil_r.
  - cbn [PyStr.split_scan Spec.cut_first]. rewrite prefix_char.
    destruct (Ascii.eqb c "@").
    + simpl. now rewrite append_nil_r.
    + rewrite IH, append_assoc. simpl.
      now destruct (Spec.cut_first "@" s) as [[l r]|].
Qed.

Lemma split_first s :
  PyStr.split "@" s = Some (PyStr.split_scan "@" 0 "" s)
  /\ hd "" (PyStr.split_scan "@" 0 "" s) = local_part s.
Proof. split; [reflexivity | apply split_scan_first]. Qed.

(* ===================================================================== *)
(** ** The routes *)
(* ===================================================================== *)

Arguments validate_email : simpl never.
Arguments validate_password : simpl never.
Arguments sanitize_input : simpl never.

Lemma credentials_missing_absent data st :
  fields_missing data -> credentials_missing data st = (inr true, st).
Proof.
  unfold credentials_missing, orM, bind, ret, lift.
  intros [H | (d & -> & H)].
  - now rewrite H.
  - destruct (body_truthy (BDict d)); cbn [negb]; [|reflexivity].
    cbn [py_in]. destruct (assoc "email" d); cbn [negb].
    + destruct H as [H|H]; [discriminate|]. now rewrite H.
    + reflexivity.
Qed.

Lemma credentials_missing_present d e p st :
  assoc "email" d = Some e -> assoc "password" d = Some p ->
  credentials_missing (BDict d) st = (inr false, st).
Proof.
  intros He Hp. unfold credentials_missing, orM, bind, ret, lift.
  destruct d as [|kv d]; [discriminate|].
  cbn [body_truthy negb py_in]. now rewrite He, Hp.
Qed.

Section RoutesFacts.

Variable generate_password_hash : string -> string -> string.
Variable check_password_hash : string -> string -> bool.
Variable create_access_token : Z -> nat -> string.
Variable commit_ok : Store -> Store -> bool.
Variable column_text : pyval -> option string.

#[local, warnings="-notation-for-abbreviation"]
Notation register_ := (register generate_password_hash commit_ok column_text).
#[local, warnings="-notation-for-abbreviation"]
Notation login_ := (login check_password_hash create_access_token).
#[local, warnings="-notation-for-abbreviation"]
Notation update_profile_ := (update_profile commit_ok).
#[local, warnings="-notation-for-abbreviation"]
Notation register_request_ :=
  (register_request generate_password_hash commit_ok column_text).
#[local, warnings="-notation-for-abbreviation"]
Notation login_request_ :=
  (login_request check_password_hash create_access_token).
#[local, warnings="-notation-for-abbreviation"]
Notation update_profile_request_ := (update_profile_request commit_ok).

(** *** Requests and their documents *)

(** On a request whose [get_json()] returns a document, each route is the
    route on that document. *)
Lemma register_request_json now salt data :
  register_request_ now salt (mkRequest (inr data)) = register_ now salt data.
Proof. reflexivity. Qed.

Lemma login_request_json now data :
  login_request_ now (mkRequest (inr data)) = login_ now data.
Proof. reflexivity. Qed.

Lemma update_profile_request_json uid data :
  update_profile_request_ uid (mkRequest (inr data)) = update_profile_ uid data.
Proof. reflexivity. Qed.

(** C10. A login request that carries no JSON document, such as one with a
    JSON content type and an empty body: [request.get_json()] raises inside
    the [try] block, and the answer is the 500 [Login failed] of the
    handler, not the 400 [Email and password required], whatever the
    exception; nothing is looked up and the table is left as it was. *)
Theorem login_request_without_json now db e :
  run (login_request_ now (mkRequest (inl e))) db =
  (inr (error_response "Login failed" 500), db, []).
Proof. reflexivity. Qed.

(** When [get_json()] returns, and the document is falsy (JSON [null], an
    empty object) or is a dict without [email] or without [password], the
    answer is 400 [Email and password required]; the request touches neither
    the user table nor the password hasher. *)
Theorem login_missing_fields now data db :
  fields_missing data ->
  run (login_ now data) db =
  (inr (error_response "Email and password required" 400), db, []).
Proof.
  intros H. unfold run, login, login_try, login_except, try_except, bind.
  now rewrite (credentials_missing_absent _ _ H).
Qed.

(** C2. A login with an e-mail that matches no user and a login with the
    e-mail of a user but a password the hasher rejects get the same answer,
    401 "Invalid credentials", and leave the table as it was. *)
Theorem login_no_enumeration now db d1 e1 p1 d2 e2 pw2 u :
  assoc "email" d1 = Some e1 -> assoc "password" d1 = Some p1 ->
  find_by_email (sanitize_input e1) db = None ->
  assoc "email" d2 = Some e2 -> assoc "password" d2 = Some (PStr pw2) ->
  find_by_email (sanitize_input e2) db = Some u ->
  check_password_hash (password u) pw2 = false ->
  fst (run (login_ now (BDict d1)) db) =
    (inr (error_response "Invalid credentials" 401), db) /\
  fst (run (login_ now (BDict d2)) db) =
    (inr (error_response "Invalid credentials" 401), db).
Proof.
  intros He1 Hp1 Hu1 He2 Hp2 Hu2 Hck.
  unfold run, login, login_try, login_except, try_except, bind.
  rewrite (credentials_missing_present _ _ _ _ He1 Hp1).
  rewrite (credentials_missing_present _ _ _ _ He2 Hp2).
  cbn [lift py_getitem]. rewrite He1, Hp1, He2, Hp2.
  unfold query_filter_by_email. cbn [pending]. rewrite Hu1, Hu2.
  cbn. rewrite Hck. split; reflexivity.
Qed.

(** *** register *)

Lemma credentials_missing_state data st :
  exists r, credentials_missing data st = (r, st).
Proof.
  unfold credentials_missing, orM, bind, ret, lift.
  destruct (negb (body_truthy data)); [now eexists|].
  destruct (py_in "email" data) as [e|[|]]; cbn [negb]; try now eexists.
  destruct (py_in "password" data) as [e|[|]]; now eexists.
Qed.

Lemma credentials_missing_false data st st' :
  credentials_missing data st = (inr false, st') ->
  match data with
  | BDict d => exists e p, assoc "email" d = Some e /\ assoc "password" d = Some p
  | _ => py_getitem data "email" = inl TypeError
  end.
Proof.
  destruct data as [v | l | d]; try reflexivity.
  unfold credentials_missing, orM, bind, ret, lift.
  destruct (negb (body_truthy (BDict d))); [discriminate|].
  cbn [py_in].
  destruct (assoc "email" d) as [e|]; cbn [negb]; [|discriminate].
  destruct (assoc "password" d) as [p|]; cbn [negb]; [|discriminate].
  intros _. now exists e, p.
Qed.

Lemma find_by_email_app x db u :
  find_by_email x db = None -> email u = x ->
  find_by_email x (db ++ [u])%list = Some u.
Proof.
  unfold find_by_email. intros Hn Hu.
  induction db as [|v db IH]; simpl in *.
  - now rewrite Hu, String.eqb_refl.
  - destruct (String.eqb (email v) x); [discriminate | now apply IH].
Qed.

(** A request rejected by one of the checks is answered 400 with the
    message of that check, and nothing is written. *)
Lemma register_rejected now salt data db msg :
  rejects data db msg ->
  exists tr,
    run (register_ now salt data) db = (inr (error_response msg 400), db, tr)
    /\ existsb writes tr = false.
Proof.
  intros H. unfold run, register, register_try, register_except, try_except, bind.
  destruct H as [H | d e p -> He Hp Hv | d e pw msg -> He Hp Hv Hpw
                 | d e pw u -> He Hp Hv Hpw Hu].
  - rewrite (credentials_missing_absent _ _ H). now exists [].
  - rewrite (credentials_missing_present _ _ _ _ He Hp).
    cbn [lift py_getitem]. rewrite He, Hp, Hv. now exists [].
  - rewrite (credentials_missing_present _ _ _ _ He Hp).
    cbn [lift py_getitem]. rewrite He, Hp, Hv. cbn [negb as_str ret].
    rewrite Hpw. now exists [].
  - rewrite (credentials_missing_present _ _ _ _ He Hp).
    cbn [lift py_getitem]. rewrite He, Hp, Hv. cbn [negb as_str ret].
    destruct (validate_password pw) as [ok m]. simpl in Hpw. subst ok.
    cbn [negb]. unfold query_filter_by_email. cbn [pending]. rewrite Hu.
    eexists. split; reflexivity.
Qed.

Ltac answered H :=
  cbn in H; injection H as <- <- <-; right; split; [discriminate | reflexivity].

(** Every run of [register] either creates one row, after all checks have
    passed, or leaves the table as it was. *)
Lemma register_outcome now salt data db r db' tr :
  run (register_ now salt data) db = (inr r, db', tr) ->
  (status r = 201 /\
   exists d e pw u,
     data = BDict d /\ assoc "email" d = Some e /\
     assoc "password" d = Some (PStr pw) /\
     validate_email (sanitize_input e) = true /\
     fst (validate_password pw) = true /\
     find_by_email (sanitize_input e) db = None /\
     db' = (db ++ [u])%list /\ email u = sanitize_input e)
  \/ (status r <> 201 /\ db' = db).
Proof.
  intros H.
  unfold run, register, register_try, register_except, try_except, bind in H.
  destruct (credentials_missing_state data (mkSt db db [])) as [r0 Hc].
  rewrite Hc in H.
  destruct r0 as [ex | [|]]; try answered H.
  apply credentials_missing_false in Hc.
  destruct data as [v | l | d];
    try (cbn [lift] in H; rewrite Hc in H; answered H).
  destruct Hc as (e & p & He & Hp).
  cbn [lift py_getitem] in H. rewrite He, Hp in H.
  destruct (validate_email (sanitize_input e)) eqn:Hv; cbn [negb] in H;
    [|answered H].
  destruct p as [| b | z | pw]; try answered H.
  cbn [as_str ret] in H.
  destruct (validate_password pw) as [ok m] eqn:Hpw.
  destruct ok; cbn [negb] in H; [|answered H].
  unfold query_filter_by_email in H. cbn [pending] in H.
  destruct (find_by_email (sanitize_input e) db) as [u0|] eqn:Hu; [answered H|].
  unfold log_event in H. cbn [committed pending trace app] in H.
  unfold PyStr.split in H. cbn [PyStr.is_empty py_get] in H.
  unfold new_User in H. cbn [pending] in H.
  destruct (column_text _) as [name|]; [|answered H].
  unfold session_add, session_commit in H. cbn [committed pending trace] in H.
  destruct (commit_ok _ _); [|answered H].
  cbn in H. injection H as <- <- <-.
  left. split; [reflexivity|].
  exists d, e, pw. eexists. rewrite Hpw. cbn [fst].
  repeat split; try eassumption; reflexivity.
Qed.

(** A request that passes every check creates one row: the sanitised
    address, the hash of the password, and the requested username as the
    column stores it. *)
Lemma register_accepts now salt d e pw db name :
  assoc "email" d = Some e -> assoc "password" d = Some (PStr pw) ->
  validate_email (sanitize_input e) = true ->
  fst (validate_password pw) = true ->
  find_by_email (sanitize_input e) db = None ->
  column_text (requested_username d (sanitize_input e)) = Some name ->
  let row := mkUser (next_id db) (sanitize_input e) name
                    (generate_password_hash salt pw) now in
  commit_ok db (db ++ [row])%list = true ->
  run (register_ now salt (BDict d)) db =
  (inr (mkResponse
          (jsonify [("message", JStr "User registered successfully");
                    ("user_id", JNum (Z.of_nat (next_id db)))])
          201),
   (db ++ [row])%list,
   [EvQueryEmail (sanitize_input e); EvGenerateHash; EvAdd row; EvCommit]).
Proof.
  intros He Hp Hv Hpw Hn Hname row Hc.
  unfold run, register, register_try, register_except, try_except, bind.
  rewrite (credentials_missing_present _ _ _ _ He Hp).
  cbn [lift py_getitem]. rewrite He, Hp, Hv. cbn [negb as_str ret].
  destruct (validate_password pw) as [ok m]. simpl in Hpw. subst ok.
  cbn [negb]. unfold query_filter_by_email. cbn [pending]. rewrite Hn.
  unfold log_event. cbn [committed pending trace app].
  destruct (split_first (sanitize_input e)) as [-> Hhd].
  cbn [py_get]. rewrite Hhd.
  unfold new_User. cbn [pending].
  change (match assoc "username" d with
          | Some v => v
          | None => PStr (local_part (sanitize_input e))
          end) with (requested_username d (sanitize_input e)).
  rewrite Hname.
  unfold session_add, session_commit. cbn [committed pending trace].
  fold row. rewrite Hc. reflexivity.
Qed.

(** C1. A register request that fails a check made before the row is
    written (a missing field, a malformed e-mail, a weak password, an e-mail
    already registered) is answered 400 and the table is unchanged; and when
    a request has been answered 201, the same request sent again is answered
    400 "User already exists" and leaves the table as the first one left
    it. *)
Theorem register_atomic_on_failure now salt data db :
  (forall msg,
     rejects data db msg ->
     exists tr,
       run (register_ now salt data) db = (inr (error_response msg 400), db, tr)
       /\ existsb writes tr = false) /\
  (forall r db' tr,
     run (register_ now salt data) db = (inr r, db', tr) ->
     status r = 201 ->
     forall now' salt',
     exists tr',
       run (register_ now' salt' data) db' =
         (inr (error_response "User already exists" 400), db', tr')
       /\ existsb writes tr' = false).
Proof.
  split.
  - intros msg. apply register_rejected.
  - intros r db' tr H Hs now' salt'.
    destruct (register_outcome _ _ _ _ _ _ _ H)
      as [(_ & d & e & pw & u & -> & He & Hp & Hv & Hpw & Hn & -> & Hu)
         | (Hne & _)]; [|contradiction].
    apply register_rejected.
    eapply RejExists; try eassumption; try reflexivity.
    now apply find_by_email_app.
Qed.

(** *** update_profile *)

Lemma framed_refl uid db : Forall2 (framed uid) db db.
Proof.
  induction db as [|u db IH]; constructor; [|exact IH].
  split; [repeat split | reflexivity].
Qed.

Lemma find_by_id_key i db u : find_by_id i db = Some u -> id u = i.
Proof.
  unfold find_by_id. intros H. apply find_some in H.
  now apply Nat.eqb_eq.
Qed.

Lemma update_row_framed uid db u u' :
  find_by_id uid db = Some u -> id u' = id u -> same_identity u u' ->
  Forall2 (framed uid) db (update_row u' db)
  /\ find_by_id uid (update_row u' db) = Some u'.
Proof.
  intros Hf Hid Hsame. pose proof (find_by_id_key _ _ _ Hf) as Hk.
  unfold find_by_id in *.
  induction db as [|r db IH]; [discriminate|].
  cbn [find update_row] in *. rewrite Hid, Hk.
  destruct (Nat.eqb (id r) uid) eqn:E.
  - injection Hf as ->. split.
    + constructor; [|apply framed_refl].
      split; [exact Hsame | intros N; contradiction].
    + cbn [find]. rewrite Hid, Hk, Nat.eqb_refl. reflexivity.
  - destruct (IH Hf) as [IH1 IH2]. split.
    + constructor; [|exact IH1].
      split; [repeat split | reflexivity].
    + cbn [find]. now rewrite E.
Qed.

(** C6. A profile update answers every request; whatever the answer, each
    row keeps its key, e-mail, password hash and creation time and the rows
    of other users are untouched; a supplied username whose sanitised form
    is shorter than 3 characters is answered 400 and the table is unchanged;
    and an answer 200 carries the key, e-mail and username of the row as
    stored, the username being the sanitised form of the supplied one. *)
Theorem update_profile_frame uid data db :
  exists r db' tr,
    run (update_profile_ uid data) db = (inr r, db', tr) /\
    Forall2 (framed uid) db db' /\
    (forall d v,
       data = BDict d -> assoc "username" d = Some v ->
       find_by_id uid db <> None ->
       String.length (sanitize_input v) < 3 ->
       r = error_response "Username must be at least 3 characters" 400
       /\ db' = db) /\
    (status r = 200 ->
     exists u',
       find_by_id uid db' = Some u' /\ body r = profile_updated u' /\
       forall d v,
         data = BDict d -> assoc "username" d = Some v ->
         username u' = sanitize_input v /\ 3 <= String.length (username u')).
Proof.
  unfold run, update_profile, update_profile_with, update_profile_except,
    try_except, bind, query_get.
  cbn [pending].
  destruct (find_by_id uid db) as [u|] eqn:Hf.
  2:{ do 3 eexists. split; [reflexivity|]. split; [apply framed_refl|].
      split; [intros d v _ _ N; now elim N | discriminate]. }
  cbn [committed pending trace app].
  assert (Hdict : forall d v, data = BDict d -> assoc "username" d = Some v ->
            py_in "username" data = inr true /\ py_getitem data "username" = inr v).
  { intros d v -> Hv. cbn. now rewrite Hv. }
  destruct (py_in "username" data) as [ex | [|]] eqn:Hin; cbn [lift].
  - (* the membership test raises *)
    do 3 eexists. split; [reflexivity|]. split; [apply framed_refl|].
    split; [|discriminate].
    intros d v Hd Hv _ _. destruct (Hdict d v Hd Hv). discriminate.
  - destruct (py_getitem data "username") as [ex | raw] eqn:Hg.
    + do 3 eexists. split; [reflexivity|]. split; [apply framed_refl|].
      split; [|discriminate].
      intros d v Hd Hv _ _. destruct (Hdict d v Hd Hv). discriminate.
    + destruct (String.length (sanitize_input raw) <? 3)%nat eqn:Hlen.
      * (* too short after sanitising *)
        do 3 eexists. split; [reflexivity|]. split; [apply framed_refl|].
        split; [|discriminate]. intros; split; reflexivity.
      * apply Nat.ltb_ge in Hlen.
        unfold set_username, session_commit, ret.
        cbn [committed pending trace].
        set (u' := mkUser (id u) (email u) (sanitize_input raw)
                          (password u) (created_at u)).
        assert (Hsame : same_identity u u') by (repeat split).
        destruct (update_row_framed uid db u u' Hf eq_refl Hsame) as [Hfr Hfind].
        destruct (commit_ok db (update_row u' db)).
        -- do 3 eexists. split; [reflexivity|]. split; [exact Hfr|]. split.
           ++ intros d v Hd Hv _ Hshort. destruct (Hdict d v Hd Hv) as [_ E].
              assert (raw = v) by congruence. subst raw. lia.
           ++ intros _. exists u'. split; [exact Hfind|].
              split; [reflexivity|].
              intros d v Hd Hv. destruct (Hdict d v Hd Hv) as [_ E].
              assert (raw = v) by congruence. subst raw. now split.
        -- do 3 eexists. split; [reflexivity|]. split; [apply framed_refl|].
           split; [|discriminate].
           intros d v Hd Hv _ Hshort. destruct (Hdict d v Hd Hv) as [_ E].
           assert (raw = v) by congruence. subst raw. lia.
  - (* no username in the body *)
    unfold session_commit, ret. cbn [committed pending trace].
    destruct (commit_ok db db).
    + do 3 eexists. split; [reflexivity|]. split; [apply framed_refl|]. split.
      * intros d v Hd Hv _ _. destruct (Hdict d v Hd Hv). discriminate.
      * intros _. exists u. split; [exact Hf|]. split; [reflexivity|].
        intros d v Hd Hv. destruct (Hdict d v Hd Hv). discriminate.
    + do 3 eexists. split; [reflexivity|]. split; [apply framed_refl|].
      split; [|discriminate].
      intros d v Hd Hv _ _. destruct (Hdict d v Hd Hv). discriminate.
Qed.
End RoutesFacts.

(* ===================================================================== *)
(** ** The routes on concrete requests *)
(* ===================================================================== *)


(** C4. [register] stores the supplied username as it came: on the script
    payload the stored username is the payload itself, not its sanitised
    form. *)
Theorem register_stores_raw_username :
  snd (fst (run (Run.register 0%Z "salt" Demo.mallory) [])) =
    [mkUser 1 "xss@example.com" "<script>alert(1)</script>"
            "pbkdf2:sha256$salt$StrongP@ss123" 0%Z]
  /\ sanitize_input (PStr "<script>alert(1)</script>")
     = "&ltscript&gtalert(1)&lt/script&gt".
Proof. split; vm_compute; reflexivity. Qed.

(** C7. [validate_email] accepts the strings of the shape local part, [@],
    domain, [.], top-level domain and, besides them, those strings followed
    by one line feed: it returns [True] on the address [a@b.com] followed by
    a line feed, which does not have the shape. *)
Theorem validate_email_accepts_trailing_newline :
  (forall s, validate_email s = Spec.email_shape_or_newline s)
  /\ validate_email ("a@b.com" ++ String PyStr.newline "") = true
  /\ Spec.email_shape ("a@b.com" ++ String PyStr.newline "") = false.
Proof.
  split; [exact validate_email_language|].
  split; vm_compute; reflexivity.
Qed.

(** *** Remarks on the edges of the claims *)

(** A pass over the denylist can leave an entry behind: removing [xp_] from
    [xxp_p_] joins the pieces into [xp_]. *)
Example denylist_pass_leaves_entry :
  sanitize_input (PStr "xxp_p_") = "xp_".
Proof. reflexivity. Qed.

(** A body that is a bare JSON number makes the presence test raise: the
    answer is the 500 of the handler, for [login] and for [register]. *)
Example login_number_body :
  run (Run.login 0%Z (BVal (PInt 5))) [alice_row] =
  (inr (error_response "Login failed" 500), [alice_row], []).
Proof. reflexivity. Qed.

(** A request to [register] whose body is no JSON text is answered 500,
    where [tests/test_security.py::test_malformed_json] expects 400 or 415. *)
Example register_malformed_json :
  run (register_request Demo.generate_password_hash Demo.commit_ok
         Demo.column_text 0%Z "salt" (mkRequest (inl BadRequest))) [alice_row] =
  (inr (error_response "Registration failed" 500), [alice_row], [EvRollback]).
Proof. reflexivity. Qed.

(** An e-mail that ends in a line feed does reach [validate_email] through
    [register]: the semicolon after it survives the strip and is removed
    afterwards, and the row is stored with the line feed. *)
Example register_stores_trailing_newline :
  fst (run (Run.register 0%Z "salt"
              (BDict [("email", PStr ("a@b.com" ++ String PyStr.newline ";"));
                      ("password", PStr "Abc12345!")])) []) =
  (inr (mkResponse (user_registered 1) 201),
   [mkUser 1 ("a@b.com" ++ String PyStr.newline "") "a"
           "pbkdf2:sha256$salt$Abc12345!" 0%Z]).
Proof. reflexivity. Qed.

(** A password that is not a string makes [validate_password] raise: the
    answer is 500 and nothing is written. *)
Example register_number_password :
  run (Run.register 0%Z "salt"
         (BDict [("email", PStr "a@b.com"); ("password", PInt 12345678)])) [] =
  (inr (error_response "Registration failed" 500), [], [EvRollback]).
Proof. reflexivity. Qed.

(** The end-to-end example of the specification: register, then log in. *)
Example register_then_login :
  fst (run (Run.register 0%Z "salt" Demo.alice) []) =
    (inr (mkResponse
            (jsonify [("message", JStr "User registered successfully");
                      ("user_id", JNum 1)]) 201), [alice_row])
  /\ status
       (match fst (fst (run (Run.login 9%Z Demo.alice) [alice_row])) with
        | inr r => r
        | inl _ => error_response "" 0
        end) = 200.
Proof. split; reflexivity. Qed.

(** *** Instances *)

Lemma validate_password_policy_witness :
  validate_password "abcdefgh" = (false, Spec.reason Spec.HasUpper).
Proof.
  apply (proj2 (validate_password_policy "abcdefgh")).
  - reflexivity.
  - intros r' H. destruct r'; simpl in H; try lia; reflexivity.
Defined.

Lemma validate_password_policy_unicode_witness :
  Unicode.validate_password Unicode.isdecimal_14 (Unicode.of_string "abcdefgh")
  = (false, Spec.reason Spec.HasUpper).
Proof.
  apply (proj2 (validate_password_policy_unicode
                  Unicode.isdecimal_14 (Unicode.of_string "abcdefgh"))).
  - reflexivity.
  - intros r' H. destruct r'; simpl in H; try lia; reflexivity.
Defined.

Lemma login_missing_fields_witness :
  run (Run.login 0%Z (BDict [("email", PStr "a@b.com")])) [] =
  (inr (error_response "Email and password required" 400), [], []).
Proof.
  apply login_missing_fields.
  right. eexists. split; [reflexivity|]. right. reflexivity.
Defined.


Lemma login_no_enumeration_witness :
  fst (run (Run.login 0%Z
              (BDict [("email", PStr "nobody@b.com"); ("password", PStr "x")]))
           [alice_row]) =
    (inr (error_response "Invalid credentials" 401), [alice_row]) /\
  fst (run (Run.login 0%Z
              (BDict [("email", PStr "a@b.com"); ("password", PStr "wrong")]))
           [alice_row]) =
    (inr (error_response "Invalid credentials" 401), [alice_row]).
Proof.
  eapply (login_no_enumeration Demo.check_password_hash Demo.create_access_token);
    reflexivity.
Defined.

Lemma register_atomic_on_failure_witness :
  (exists tr,
     run (Run.register 5%Z "pepper" Demo.alice) [alice_row] =
       (inr (error_response "User already exists" 400), [alice_row], tr)
     /\ existsb writes tr = false) /\
  (exists tr,
     run (Run.register 5%Z "pepper" Demo.alice) [alice_row] =
       (inr (error_response "User already exists" 400), [alice_row], tr)
     /\ existsb writes tr = false).
Proof.
  split.
  - apply (proj1 (register_atomic_on_failure
                    Demo.generate_password_hash Demo.commit_ok Demo.column_text
                    5%Z "pepper" Demo.alice [alice_row])).
    eapply RejExists; reflexivity.
  - eapply (proj2 (register_atomic_on_failure
                     Demo.generate_password_hash Demo.commit_ok Demo.column_text
                     0%Z "salt" Demo.alice [])).
    + reflexivity.
    + reflexivity.
Defined.

(* ===================================================================== *)
(** ** Further properties of app/utils.py *)
(* ===================================================================== *)

(** *** sanitize_input leaves no markup delimiter *)

Lemma sanitize_without c :
  (forall d, PyStr.mem c (Spec.escape_char d) = false) ->
  forall v, PyStr.mem c (sanitize_input v) = false.
Proof.
  intros Hc v. destruct (truthy v) eqn:T.
  - rewrite (sanitize_input_truthy _ T).
    unfold Spec.sanitize, Spec.denylist. cbn [fold_left].
    do 6 apply mem_remove.
    unfold Spec.escape. rewrite mem_expand. now apply any_false.
  - now rewrite (sanitize_input_falsy _ T).
Qed.

(** X1. Whatever the input, the output of [sanitize_input] holds none of
    the characters that open or close a tag or an attribute value. *)
Theorem sanitize_input_no_markup :
  (forall v, PyStr.mem "<" (sanitize_input v) = false) /\
  (forall v, PyStr.mem ">" (sanitize_input v) = false) /\
  (forall v, PyStr.mem PyStr.dquote (sanitize_input v) = false) /\
  (forall v, PyStr.mem "'" (sanitize_input v) = false).
Proof.
  repeat split; apply sanitize_without; intros d; each_char d; reflexivity.
Qed.

(** *** Addresses accepted by validate_email *)

Lemma count_append c a b :
  PyStr.count c (a ++ b) = PyStr.count c a + PyStr.count c b.
Proof. induction a as [|d a IH]; simpl; [reflexivity|]. rewrite IH. lia. Qed.

Lemma count_none p c s :
  p c = false -> PyStr.all p s = true -> PyStr.count c s = 0.
Proof.
  intros Hc. induction s as [|d s IH]; simpl; [reflexivity|].
  intros H. apply andb_true_iff in H. destruct H as [Hd Hs].
  rewrite (IH Hs). destruct (Ascii.eqb c d) eqn:E; [|reflexivity].
  apply Ascii.eqb_eq in E. congruence.
Qed.

Lemma length_append (a b : string) :
  String.length (a ++ b) = String.length a + String.length b.
Proof. induction a; simpl; congruence. Qed.

Lemma nonempty_length s : PyStr.is_empty s = false -> 1 <= String.length s.
Proof. destruct s; simpl; [discriminate | lia]. Qed.

Lemma email_shape_one_at s :
  Spec.email_shape s = true ->
  PyStr.count "@" s = 1 /\ 6 <= String.length s.
Proof.
  intros H. apply email_shape_elim in H.
  destruct H as (l & d & t & -> & Hl & Hla & Hd & Hda & Ht & Hta).
  rewrite !count_append, !length_append.
  rewrite (count_none local_char "@" l), (count_none domain_char "@" d),
          (count_none tld_char "@" t) by (assumption || reflexivity).
  apply nonempty_length in Hl, Hd. simpl. lia.
Qed.

(** X2. An address accepted by [validate_email] has exactly one [@] and at
    least six characters. *)
Theorem validate_email_one_at s :
  validate_email s = true ->
  PyStr.count "@" s = 1 /\ 6 <= String.length s.
Proof.
  rewrite validate_email_language. unfold Spec.email_shape_or_newline.
  intros H. apply orb_true_iff in H. destruct H as [H | H].
  - now apply email_shape_one_at.
  - destruct (Spec.chop_newline s) as [t|] eqn:E; [|discriminate].
    apply chop_newline_some in E. subst s.
    destruct (email_shape_one_at _ H) as [Hc Hlen].
    rewrite count_append, length_append, Hc. simpl. lia.
Qed.

(** *** is_safe_url *)

Lemma is_safe_url_schemes_false url schemes :
  is_safe_url_schemes url schemes = false.
Proof.
  induction schemes as [|sc rest IH]; simpl; [reflexivity|].
  now destruct (prefix sc (PyStr.lower url)).
Qed.

(** X3. On every string [is_safe_url] returns, and the answer is [True]
    exactly when the string starts with a slash: every other string gets
    [False] whatever its scheme, so the scheme list changes no answer, an
    address such as [//host] passes and every absolute URL is refused.  Of
    all values, only such strings get [True]. *)
Theorem is_safe_url_leading_slash :
  (forall s, is_safe_url (PStr s) = inr (prefix "/" s)) /\
  (forall url,
     is_safe_url url = inr true <->
     exists s, url = PStr s /\ prefix "/" s = true).
Proof.
  assert (Hstr : forall s, is_safe_url (PStr s) = inr (prefix "/" s)).
  { intros s. unfold is_safe_url. destruct s as [|c s]; [reflexivity|].
    cbn [truthy PyStr.is_empty negb].
    destruct (prefix "/" (String c s)); [reflexivity|].
    now rewrite is_safe_url_schemes_false. }
  split; [exact Hstr|]. intros url. split.
  - destruct url as [| b | z | s].
    + discriminate.
    + unfold is_safe_url. destruct b; discriminate.
    + unfold is_safe_url. destruct (negb (truthy (PInt z))); discriminate.
    + rewrite Hstr. intros H. exists s. split; [reflexivity | congruence].
  - intros (s & -> & P). now rewrite Hstr, P.
Qed.

(** *** CSRF tokens *)

Lemma hex_length bytes : String.length (PyStr.hex bytes) = 2 * List.length bytes.
Proof. induction bytes as [|b r IH]; simpl; [reflexivity|]. rewrite IH. lia. Qed.

Lemma hex_digits_only bytes : PyStr.all is_hex_digit (PyStr.hex bytes) = true.
Proof.
  induction bytes as [|b r IH]; [reflexivity|].
  cbn [PyStr.hex PyStr.all]. rewrite IH, andb_true_r.
  each_char b; reflexivity.
Qed.

(** X4. A CSRF token made from a source that hands out the 32 bytes asked
    for is 64 characters long, all of them lower-case hexadecimal digits. *)
Theorem generate_csrf_token_format token_bytes :
  List.length (token_bytes 32) = 32 ->
  String.length (generate_csrf_token token_bytes) = 64
  /\ PyStr.all is_hex_digit (generate_csrf_token token_bytes) = true.
Proof.
  intros H. unfold generate_csrf_token.
  rewrite hex_length, H, hex_digits_only. split; reflexivity.
Qed.

Lemma hex_isascii bytes : PyStr.isascii (PyStr.hex bytes) = true.
Proof.
  unfold PyStr.isascii.
  induction bytes as [|b r IH]; [reflexivity|].
  cbn [PyStr.hex PyStr.all]. rewrite IH, andb_true_r.
  each_char b; reflexivity.
Qed.

Lemma hex_byte_injective a b :
  PyStr.hex_digit (PyStr.ord a / 16) = PyStr.hex_digit (PyStr.ord b / 16) ->
  PyStr.hex_digit (PyStr.ord a mod 16) = PyStr.hex_digit (PyStr.ord b mod 16) ->
  a = b.
Proof.
  assert (forall c, exists h l,
            (h < 16)%nat /\ (l < 16)%nat
            /\ PyStr.hex_digit (PyStr.ord c / 16) = PyStr.hex_digit (N.of_nat h)
            /\ PyStr.hex_digit (PyStr.ord c mod 16) = PyStr.hex_digit (N.of_nat l)
            /\ c = ascii_of_nat (16 * h + l)) as Hsplit.
  { intros c.
    exists (N.to_nat (PyStr.ord c / 16)), (N.to_nat (PyStr.ord c mod 16)).
    each_char c; repeat split; try reflexivity; vm_compute; lia. }
  assert (forall h k, (h < 16)%nat -> (k < 16)%nat ->
            PyStr.hex_digit (N.of_nat h) = PyStr.hex_digit (N.of_nat k) -> h = k)
    as Hdigit.
  { intros h k Hh Hk.
    do 16 (destruct h as [|h]; [do 16 (destruct k as [|k];
             [vm_compute; congruence|]); lia|]). lia. }
  intros E1 E2.
  destruct (Hsplit a) as (h1 & l1 & Hh1 & Hl1 & A1 & A2 & ->).
  destruct (Hsplit b) as (h2 & l2 & Hh2 & Hl2 & B1 & B2 & ->).
  rewrite A1, B1 in E1. rewrite A2, B2 in E2.
  apply Hdigit in E1; try assumption. apply Hdigit in E2; try assumption.
  now subst.
Qed.

Lemma hex_injective a : forall b, PyStr.hex a = PyStr.hex b -> a = b.
Proof.
  induction a as [|x a IH]; intros [|y b]; simpl; try discriminate;
    [reflexivity|].
  intros [= E1 E2 E3]. f_equal; [now apply hex_byte_injective | now apply IH].
Qed.

(** X5. Two CSRF tokens validate against each other exactly when they were
    made from the same 32 bytes, and validating generated tokens never
    raises. *)
Theorem validate_generated_csrf_tokens source1 source2 :
  validate_csrf_token (generate_csrf_token source1) (generate_csrf_token source2)
  = inr (bytes_eqb (source1 32) (source2 32)).
Proof.
  unfold validate_csrf_token, generate_csrf_token, bytes_eqb.
  rewrite !hex_isascii. cbn [andb]. f_equal.
  destruct (list_eq_dec ascii_dec (source1 32) (source2 32)) as [E | N].
  - rewrite E. apply String.eqb_refl.
  - apply String.eqb_neq. intros H. apply N. now apply hex_injective.
Qed.

(** *** White space around the input *)

Lemma drop_space_app_space a s :
  PyStr.all PyStr.isspace a = true -> Spec.drop_space (a ++ s) = Spec.drop_space s.
Proof.
  induction a as [|c a IH]; simpl; [reflexivity|].
  intros H. apply andb_true_iff in H. destruct H as [Hc Ha].
  rewrite Hc. now apply IH.
Qed.

Lemma trim_app_space_r s b :
  PyStr.all PyStr.isspace b = true ->
  Spec.drop_space (Spec.rev (Spec.drop_space (s ++ b))) =
  Spec.drop_space (Spec.rev (Spec.drop_space s)).
Proof.
  intros Hb. induction s as [|c s IH].
  - cbn [append]. rewrite <- (append_nil_r b) at 1.
    rewrite drop_space_app_space by exact Hb. reflexivity.
  - cbn [append Spec.drop_space]. destruct (PyStr.isspace c); [exact IH|].
    change (String c (s ++ b)) with (String c s ++ b).
    rewrite rev_append. apply drop_space_app_space. now rewrite all_rev.
Qed.

(** X6. White space around the input does not count: [sanitize_input]
    gives the same output for a string and for that string with any white
    space before and after it. *)
Theorem sanitize_input_ignores_outer_space a s b :
  PyStr.all PyStr.isspace a = true ->
  PyStr.all PyStr.isspace b = true ->
  sanitize_input (PStr (a ++ s ++ b)) = sanitize_input (PStr s).
Proof.
  intros Ha Hb. rewrite !sanitize_input_str. unfold Spec.sanitize, Spec.trim.
  rewrite (drop_space_app_space a _ Ha), (trim_app_space_r s b Hb).
  reflexivity.
Qed.


(* ===================================================================== *)
(** ** Further properties of app/routes.py *)
(* ===================================================================== *)
(** *** Facts about the table *)

Lemma find_by_email_none x db :
  find_by_email x db = None -> ~ In x (map email db).
Proof.
  unfold find_by_email. induction db as [|u db IH]; simpl; [tauto|].
  destruct (String.eqb (email u) x) eqn:E; [discriminate|].
  apply String.eqb_neq in E. intros H [H1 | H1]; [contradiction | now apply IH].
Qed.

Lemma NoDup_snoc {A} (l : list A) x :
  NoDup l -> ~ In x l -> NoDup (l ++ [x]).
Proof.
  induction 1 as [|y l Hy Hl IH]; simpl; intros Hx.
  - constructor; [tauto | constructor].
  - constructor.
    + rewrite in_app_iff. simpl. intros [H | [H | []]]; [tauto|].
      apply Hx. now left.
    + apply IH. tauto.
Qed.

Lemma update_row_idem u db : update_row u (update_row u db) = update_row u db.
Proof.
  induction db as [|r db IH]; [reflexivity|].
  cbn [update_row]. destruct (Nat.eqb (id r) (id u)) eqn:E; cbn [update_row].
  - now rewrite Nat.eqb_refl.
  - now rewrite E, IH.
Qed.

Lemma renamed_found uid db u name :
  find_by_id uid db = Some u ->
  find_by_id uid (update_row (renamed u name) db) = Some (renamed u name).
Proof.
  intros Hf.
  apply (update_row_framed uid db u (renamed u name) Hf eq_refl).
  repeat split.
Qed.

Section LoginProperties.

Variable check_password_hash : string -> string -> bool.
Variable create_access_token : Z -> nat -> string.

#[local, warnings="-notation-for-abbreviation"]
Notation login_ := (login check_password_hash create_access_token).

(** *** login *)

(** Every way through [login]: the table is handed back as it was, nothing
    is written, and the answer is 200 only on the branch behind the
    password check. *)
Lemma login_outcome now data db :
  exists r tr,
    run (login_ now data) db = (inr r, db, tr) /\
    existsb writes tr = false /\
    In (status r) [200; 400; 401; 500] /\
    (status r = 200 ->
     exists d e pw u,
       data = BDict d /\ assoc "email" d = Some e /\
       assoc "password" d = Some (PStr pw) /\
       find_by_email (sanitize_input e) db = Some u /\
       check_password_hash (password u) pw = true /\
       body r = login_successful (create_access_token now (id u)) u).
Proof.
  unfold run, login, login_try, login_except, try_except, bind.
  destruct (credentials_missing_state data (mkSt db db [])) as [r0 Hc].
  rewrite Hc.
  destruct r0 as [ex | [|]];
    try (do 2 eexists; repeat split; try reflexivity;
         [simpl; tauto | discriminate]).
  apply credentials_missing_false in Hc.
  destruct data as [v | l | d];
    try (cbn [lift]; rewrite Hc;
         do 2 eexists; repeat split; try reflexivity;
         [simpl; tauto | discriminate]).
  destruct Hc as (e & p & He & Hp).
  cbn [lift py_getitem]. rewrite He, Hp.
  unfold query_filter_by_email. cbn [pending].
  destruct (find_by_email (sanitize_input e) db) as [u|] eqn:Hu.
  2:{ do 2 eexists; repeat split; try reflexivity;
        [simpl; tauto | discriminate]. }
  unfold log_event. cbn [committed pending trace app].
  destruct p as [| b | z | pw];
    try (do 2 eexists; repeat split; try reflexivity;
         [simpl; tauto | discriminate]).
  cbn [as_str ret].
  destruct (check_password_hash (password u) pw) eqn:Hck; cbn [negb].
  - do 2 eexists. repeat split; try reflexivity; [simpl; tauto|].
    intros _. exists d, e, pw, u. now repeat split.
  - do 2 eexists; repeat split; try reflexivity;
      [simpl; tauto | discriminate].
Qed.

(** X7. [login] answers every request, with 200, 400, 401 or 500, and
    never writes: no row is added, nothing is committed and the table is
    the one it was given. *)
Theorem login_read_only now data db :
  exists r tr,
    run (login_ now data) db = (inr r, db, tr) /\
    existsb writes tr = false /\
    In (status r) [200; 400; 401; 500].
Proof.
  destruct (login_outcome now data db) as (r & tr & H & Hw & Hs & _).
  now exists r, tr.
Qed.

(** X8. A 200 from [login] means that a row with the sanitised e-mail of
    the request exists and that [check_password_hash] accepted the password
    against the hash of that row; the token is issued for the key of that
    row and the answer carries its public fields. *)
Theorem login_success_is_checked now data db r db' tr :
  run (login_ now data) db = (inr r, db', tr) ->
  status r = 200 ->
  exists d e pw u,
    data = BDict d /\ assoc "email" d = Some e /\
    assoc "password" d = Some (PStr pw) /\
    find_by_email (sanitize_input e) db = Some u /\
    check_password_hash (password u) pw = true /\
    body r = login_successful (create_access_token now (id u)) u.
Proof.
  intros H Hs.
  destruct (login_outcome now data db) as (r0 & tr0 & H0 & _ & _ & Hok).
  rewrite H0 in H. injection H as <- _ _. now apply Hok.
Qed.

(** The same request, accepted. *)
Lemma login_accepts now d e pw u db :
  assoc "email" d = Some e -> assoc "password" d = Some (PStr pw) ->
  find_by_email (sanitize_input e) db = Some u ->
  check_password_hash (password u) pw = true ->
  run (login_ now (BDict d)) db =
  (inr (mkResponse (login_successful (create_access_token now (id u)) u) 200),
   db,
   [EvQueryEmail (sanitize_input e); EvCheckHash (password u);
    EvCreateToken (id u)]).
Proof.
  intros He Hp Hu Hck. unfold run, login, login_try, login_except, try_except, bind.
  rewrite (credentials_missing_present _ _ _ _ He Hp).
  cbn [lift py_getitem]. rewrite He, Hp.
  unfold query_filter_by_email. cbn [pending]. rewrite Hu.
  unfold log_event. cbn [committed pending trace app as_str ret].
  rewrite Hck. reflexivity.
Qed.

End LoginProperties.

Section RegisterProperties.

Variable generate_password_hash : string -> string -> string.
Variable commit_ok : Store -> Store -> bool.
Variable column_text : pyval -> option string.

#[local, warnings="-notation-for-abbreviation"]
Notation register_ := (register generate_password_hash commit_ok column_text).

(** *** register *)

Ltac not_created H Hs :=
  cbn in H; injection H as <- <- <-; discriminate Hs.

(** The row behind a 201. *)
Lemma register_created_row now salt data db r db' tr :
  run (register_ now salt data) db = (inr r, db', tr) ->
  status r = 201 ->
  exists d e pw name,
    data = BDict d /\ assoc "email" d = Some e /\
    assoc "password" d = Some (PStr pw) /\
    find_by_email (sanitize_input e) db = None /\
    column_text (requested_username d (sanitize_input e)) = Some name /\
    db' = (db ++ [mkUser (next_id db) (sanitize_input e) name
                         (generate_password_hash salt pw) now])%list /\
    body r = user_registered (next_id db).
Proof.
  intros H Hs.
  unfold run, register, register_try, register_except, try_except, bind in H.
  destruct (credentials_missing_state data (mkSt db db [])) as [r0 Hc].
  rewrite Hc in H.
  destruct r0 as [ex | [|]]; try not_created H Hs.
  apply credentials_missing_false in Hc.
  destruct data as [v | l | d];
    try (cbn [lift] in H; rewrite Hc in H; not_created H Hs).
  destruct Hc as (e & p & He & Hp).
  cbn [lift py_getitem] in H. rewrite He, Hp in H.
  destruct (validate_email (sanitize_input e)) eqn:Hv; cbn [negb] in H;
    [|not_created H Hs].
  destruct p as [| b | z | pw]; try not_created H Hs.
  cbn [as_str ret] in H.
  destruct (validate_password pw) as [ok m] eqn:Hpw.
  destruct ok; cbn [negb] in H; [|not_created H Hs].
  unfold query_filter_by_email in H. cbn [pending] in H.
  destruct (find_by_email (sanitize_input e) db) as [u0|] eqn:Hu;
    [not_created H Hs|].
  unfold log_event in H. cbn [committed pending trace app] in H.
  destruct (split_first (sanitize_input e)) as [Hsplit Hhd].
  rewrite Hsplit in H. cbn [py_get] in H. rewrite Hhd in H.
  change (match assoc "username" d with
          | Some v => v
          | None => PStr (local_part (sanitize_input e))
          end) with (requested_username d (sanitize_input e)) in H.
  unfold new_User in H. cbn [pending] in H.
  destruct (column_text (requested_username d (sanitize_input e)))
    as [name|] eqn:Hname; [|not_created H Hs].
  unfold session_add, session_commit in H. cbn [committed pending trace] in H.
  destruct (commit_ok _ _); [|not_created H Hs].
  cbn in H. injection H as <- <- <-.
  exists d, e, pw, name. now repeat split.
Qed.

(** X9. [register] keeps the e-mails of the table pairwise distinct. *)
Theorem register_keeps_emails_unique now salt data db r db' tr :
  NoDup (map email db) ->
  run (register_ now salt data) db = (inr r, db', tr) ->
  NoDup (map email db').
Proof.
  intros Hnd H.
  destruct (register_outcome _ _ _ _ _ _ _ _ _ _ H)
    as [(_ & d & e & pw & u & _ & _ & _ & _ & _ & Hn & -> & Hu) | (_ & ->)];
    [|exact Hnd].
  rewrite map_app. simpl. apply NoDup_snoc; [exact Hnd|].
  rewrite Hu. now apply find_by_email_none.
Qed.

(** X10. [register] keeps every stored e-mail one that [validate_email]
    accepts. *)
Theorem register_keeps_emails_valid now salt data db r db' tr :
  Forall (fun u => validate_email (email u) = true) db ->
  run (register_ now salt data) db = (inr r, db', tr) ->
  Forall (fun u => validate_email (email u) = true) db'.
Proof.
  intros Hall H.
  destruct (register_outcome _ _ _ _ _ _ _ _ _ _ H)
    as [(_ & d & e & pw & u & _ & _ & _ & Hv & _ & _ & -> & Hu) | (_ & ->)];
    [|exact Hall].
  apply Forall_app. split; [exact Hall|].
  constructor; [|constructor]. now rewrite Hu.
Qed.

(** X11. A 201 from [register] adds exactly one row, at the end of the
    table: its e-mail is the sanitised e-mail of the request, its password
    field is the hash of the requested password under the drawn salt, its
    creation time is the time of the request, and the [user_id] of the
    answer is its key. *)
Theorem register_row_created now salt data db r db' tr :
  run (register_ now salt data) db = (inr r, db', tr) ->
  status r = 201 ->
  exists u e pw,
    db' = (db ++ [u])%list /\
    py_getitem data "email" = inr e /\
    py_getitem data "password" = inr (PStr pw) /\
    email u = sanitize_input e /\
    password u = generate_password_hash salt pw /\
    created_at u = now /\
    body r = user_registered (id u).
Proof.
  intros H Hs.
  destruct (register_created_row _ _ _ _ _ _ _ H Hs)
    as (d & e & pw & name & -> & He & Hp & _ & _ & -> & Hb).
  eexists. exists e, pw. cbn [py_getitem]. rewrite He, Hp.
  repeat split. exact Hb.
Qed.

End RegisterProperties.

Section RegisterThenLogin.

Variable generate_password_hash : string -> string -> string.
Variable check_password_hash : string -> string -> bool.
Variable create_access_token : Z -> nat -> string.
Variable commit_ok : Store -> Store -> bool.
Variable column_text : pyval -> option string.

#[local, warnings="-notation-for-abbreviation"]
Notation register_ := (register generate_password_hash commit_ok column_text).
#[local, warnings="-notation-for-abbreviation"]
Notation login_ := (login check_password_hash create_access_token).

(** X12. With a hasher that accepts the password it has hashed, the request
    that was answered 201 by [register] is answered 200 by [login] on the
    table [register] left, with the public fields of the new row. *)
Theorem login_after_register now salt data db r db' tr now' :
  (forall pw, py_getitem data "password" = inr (PStr pw) ->
              check_password_hash (generate_password_hash salt pw) pw = true) ->
  run (register_ now salt data) db = (inr r, db', tr) ->
  status r = 201 ->
  exists u tr',
    In u db' /\
    run (login_ now' data) db' =
      (inr (mkResponse (login_successful (create_access_token now' (id u)) u) 200),
       db', tr').
Proof.
  intros Hhash H Hs.
  destruct (register_created_row _ _ _ _ _ _ _ _ _ _ H Hs)
    as (d & e & pw & name & -> & He & Hp & Hn & _ & -> & _).
  eexists. eexists. split.
  - apply in_or_app. right. left. reflexivity.
  - apply login_accepts with (e := e) (pw := pw); try assumption.
    + now apply find_by_email_app.
    + cbn [password]. apply Hhash. cbn [py_getitem]. now rewrite Hp.
Qed.

End RegisterThenLogin.

Section UpdateProperties.

Variable commit_ok : Store -> Store -> bool.

#[local, warnings="-notation-for-abbreviation"]
Notation update_profile_ := (update_profile commit_ok).

(** *** update_profile *)

(** Every way through [update_profile] that returns: either the answer is
    not 200 and the table is the one given, or the user exists and the
    table is the given one with at most the username of that row replaced
    by the sanitised form of the requested one. *)
Lemma update_profile_outcome uid data db r db' tr :
  run (update_profile_ uid data) db = (inr r, db', tr) ->
  (status r <> 200 /\ db' = db) \/
  (status r = 200 /\
   exists u,
     find_by_id uid db = Some u /\
     ((py_in "username" data = inr false /\ db' = db /\
       body r = profile_updated u) \/
      (exists raw,
         py_getitem data "username" = inr raw /\
         3 <= String.length (sanitize_input raw) /\
         db' = update_row (renamed u (sanitize_input raw)) db /\
         body r = profile_updated (renamed u (sanitize_input raw))))).
Proof.
  intros H.
  unfold run, update_profile, update_profile_with, update_profile_except,
    try_except, bind, query_get in H.
  cbn [pending] in H.
  destruct (find_by_id uid db) as [u|] eqn:Hf.
  2:{ cbn in H. injection H as <- <- <-. left. now split. }
  cbn [committed pending trace app] in H.
  destruct (py_in "username" data) as [ex | [|]] eqn:Hin; cbn [lift] in H.
  - cbn in H. injection H as <- <- <-. left. now split.
  - destruct (py_getitem data "username") as [ex | raw] eqn:Hg.
    + cbn in H. injection H as <- <- <-. left. now split.
    + destruct (String.length (sanitize_input raw) <? 3)%nat eqn:Hlen.
      * cbn in H. injection H as <- <- <-. left. now split.
      * apply Nat.ltb_ge in Hlen.
        unfold set_username, session_commit, ret in H.
        cbn [committed pending trace] in H.
        destruct (commit_ok db _).
        -- cbn in H. injection H as <- <- <-. right. split; [reflexivity|].
           exists u. split; [reflexivity|]. right. exists raw.
           now repeat split.
        -- cbn in H. injection H as <- <- <-. left. now split.
  - unfold session_commit, ret in H. cbn [committed pending trace] in H.
    destruct (commit_ok db db).
    + cbn in H. injection H as <- <- <-. right. split; [reflexivity|].
      exists u. split; [reflexivity|]. left. now repeat split.
    + cbn in H. injection H as <- <- <-. left. now split.
Qed.

(** X13. [update_profile] changes the table only when it answers 200: after
    any other answer (404, 400, or the 500 of a rejected commit or of a
    malformed body) the table is the one it was given. *)
Theorem update_profile_changes_only_on_200 uid data db r db' tr :
  run (update_profile_ uid data) db = (inr r, db', tr) ->
  status r <> 200 ->
  db' = db.
Proof.
  intros H Hs.
  destruct (update_profile_outcome _ _ _ _ _ _ H) as [[_ E] | [E _]];
    [exact E | contradiction].
Qed.

(** X14. Repeating a profile update that was answered 200 changes nothing
    more: the table stays as the first update left it, and if the second
    answer is 200 too it is the same answer. *)
Theorem update_profile_idempotent uid data db r db' tr r2 db2 tr2 :
  run (update_profile_ uid data) db = (inr r, db', tr) ->
  status r = 200 ->
  run (update_profile_ uid data) db' = (inr r2, db2, tr2) ->
  db2 = db' /\ (status r2 = 200 -> r2 = r).
Proof.
  intros H Hs H2.
  destruct (update_profile_outcome _ _ _ _ _ _ H)
    as [[N _] | (_ & u & Hf & Hcase)]; [contradiction|].
  assert (Hr : forall x y : Response,
             status x = status y -> body x = body y -> x = y).
  { intros [bx sx] [b_y sy]; simpl; intros -> ->; reflexivity. }
  destruct (update_profile_outcome _ _ _ _ _ _ H2)
    as [[N2 E2] | (Hs2 & u2 & Hf2 & Hcase2)].
  - split; [exact E2 | intros; contradiction].
  - destruct Hcase as [(Hin & -> & Hb) | (raw & Hg & Hlen & -> & Hb)].
    + rewrite Hf in Hf2. injection Hf2 as <-.
      destruct Hcase2 as [(_ & -> & Hb2) | (raw2 & Hg2 & _ & _ & _)].
      * split; [reflexivity|]. intros _. apply Hr; congruence.
      * exfalso. destruct data as [v | l | d]; cbn in Hin, Hg2;
          try discriminate.
        destruct (assoc "username" d); discriminate.
    + rewrite (renamed_found _ _ _ _ Hf) in Hf2. injection Hf2 as <-.
      destruct Hcase2 as [(Hin2 & _ & _) | (raw2 & Hg2 & _ & -> & Hb2)].
      * exfalso. destruct data as [v | l | d]; cbn in Hin2, Hg;
          try discriminate.
        destruct (assoc "username" d); discriminate.
      * rewrite Hg in Hg2. injection Hg2 as <-.
        split; [apply update_row_idem|].
        intros _. apply Hr; [congruence|]. rewrite Hb2, Hb. reflexivity.
Qed.

End UpdateProperties.

Section ProfileProperties.

Variable commit_ok : Store -> Store -> bool.
Variable isoformat : Z -> string.

#[local, warnings="-notation-for-abbreviation"]
Notation update_profile_ := (update_profile commit_ok).
#[local, warnings="-notation-for-abbreviation"]
Notation get_profile_ := (get_profile isoformat).

(** *** get_profile *)

Lemma get_profile_run uid db :
  run (get_profile_ uid) db =
  (inr match find_by_id uid db with
       | Some u => mkResponse (profile_fetched isoformat u) 200
       | None => error_response "User not found" 404
       end, db, [EvQueryId uid]).
Proof.
  unfold run, get_profile, try_except, bind, query_get. cbn [pending].
  now destruct (find_by_id uid db).
Qed.

(** X15. [get_profile] never fails and never writes: the table is handed
    back as it was, the only event is the lookup, and the answer is 404
    when no row has the key of the caller and otherwise 200 with the fields
    of a row of the table that has this key. *)
Theorem get_profile_reads uid db :
  exists r,
    run (get_profile_ uid) db = (inr r, db, [EvQueryId uid]) /\
    ((status r = 404 /\ forall u, In u db -> id u <> uid) \/
     (status r = 200 /\
      exists u, In u db /\ id u = uid /\ body r = profile_fetched isoformat u)).
Proof.
  eexists. split; [apply get_profile_run|].
  destruct (find_by_id uid db) as [u|] eqn:Hf.
  - right. split; [reflexivity|]. exists u.
    unfold find_by_id in Hf. apply find_some in Hf. destruct Hf as [Hin Hk].
    apply Nat.eqb_eq in Hk. now repeat split.
  - left. split; [reflexivity|]. intros u Hin Hk.
    unfold find_by_id in Hf.
    pose proof (find_none _ _ Hf u Hin) as N. cbn in N.
    apply Nat.eqb_neq in N. contradiction.
Qed.

(** X16. A profile fetch after a profile update that was answered 200 shows
    what the update answered: the same row, with the key, e-mail and
    username of the update's answer. *)
Theorem get_profile_after_update uid data db r db' tr :
  run (update_profile_ uid data) db = (inr r, db', tr) ->
  status r = 200 ->
  exists u',
    body r = profile_updated u' /\
    run (get_profile_ uid) db' =
      (inr (mkResponse (profile_fetched isoformat u') 200), db', [EvQueryId uid]).
Proof.
  intros H Hs.
  destruct (update_profile_outcome _ _ _ _ _ _ _ H)
    as [[N _] | (_ & u & Hf & Hcase)]; [contradiction|].
  destruct Hcase as [(_ & -> & Hb) | (raw & _ & _ & -> & Hb)].
  - exists u. split; [exact Hb|]. rewrite get_profile_run. now rewrite Hf.
  - exists (renamed u (sanitize_input raw)). split; [exact Hb|].
    rewrite get_profile_run. now rewrite (renamed_found _ _ _ _ Hf).
Qed.

End ProfileProperties.

(** *** Instances of the further properties *)

Lemma validate_email_one_at_witness :
  PyStr.count "@" "a@b.com" = 1 /\ 6 <= String.length "a@b.com".
Proof. apply validate_email_one_at. reflexivity. Defined.

Lemma generate_csrf_token_format_witness :
  String.length (generate_csrf_token count_bytes) = 64
  /\ PyStr.all is_hex_digit (generate_csrf_token count_bytes) = true.
Proof. apply generate_csrf_token_format. reflexivity. Defined.

Lemma sanitize_input_ignores_outer_space_witness :
  sanitize_input (PStr (" " ++ "a@b.com" ++ String PyStr.newline ""))
  = sanitize_input (PStr "a@b.com").
Proof. apply sanitize_input_ignores_outer_space; reflexivity. Defined.

Lemma login_success_is_checked_witness :
  exists d e pw u,
    Demo.alice = BDict d /\ assoc "email" d = Some e /\
    assoc "password" d = Some (PStr pw) /\
    find_by_email (sanitize_input e) [alice_row] = Some u /\
    Demo.check_password_hash (password u) pw = true /\
    body (mkResponse
            (login_successful (Demo.create_access_token 9%Z 1) alice_row) 200)
    = login_successful (Demo.create_access_token 9%Z (id u)) u.
Proof.
  eapply (login_success_is_checked
            Demo.check_password_hash Demo.create_access_token
            9%Z Demo.alice [alice_row]);
    reflexivity.
Defined.

Lemma login_after_register_witness :
  exists u tr',
    In u [alice_row] /\
    run (Run.login 9%Z Demo.alice) [alice_row] =
      (inr (mkResponse
              (login_successful (Demo.create_access_token 9%Z (id u)) u) 200),
       [alice_row], tr').
Proof.
  eapply (login_after_register
            Demo.generate_password_hash Demo.check_password_hash
            Demo.create_access_token Demo.commit_ok Demo.column_text
            0%Z "salt" Demo.alice []).
  - intros pw H. injection H as <-. reflexivity.
  - reflexivity.
  - reflexivity.
Defined.

Lemma register_keeps_emails_unique_witness :
  NoDup (map email [alice_row]).
Proof.
  eapply (register_keeps_emails_unique
            Demo.generate_password_hash Demo.commit_ok Demo.column_text
            0%Z "salt" Demo.alice []).
  - constructor.
  - reflexivity.
Defined.

Lemma register_keeps_emails_valid_witness :
  Forall (fun u => validate_email (email u) = true) [alice_row].
Proof.
  eapply (register_keeps_emails_valid
            Demo.generate_password_hash Demo.commit_ok Demo.column_text
            0%Z "salt" Demo.alice []).
  - constructor.
  - reflexivity.
Defined.

Lemma register_row_created_witness :
  exists u e pw,
    [alice_row] = ([] ++ [u])%list /\
    py_getitem Demo.alice "email" = inr e /\
    py_getitem Demo.alice "password" = inr (PStr pw) /\
    email u = sanitize_input e /\
    password u = Demo.generate_password_hash "salt" pw /\
    created_at u = 0%Z /\
    body (mkResponse (user_registered 1) 201) = user_registered (id u).
Proof.
  eapply (register_row_created
            Demo.generate_password_hash Demo.commit_ok Demo.column_text
            0%Z "salt" Demo.alice []);
    reflexivity.
Defined.

Lemma update_profile_changes_only_on_200_witness :
  snd (fst (run (Run.update_profile 1 (BDict [("username", PStr "ab")]))
                [alice_row]))
  = [alice_row].
Proof.
  apply (update_profile_changes_only_on_200
           Demo.commit_ok 1 (BDict [("username", PStr "ab")]) [alice_row]
           (error_response "Username must be at least 3 characters" 400)
           _ [EvQueryId 1]).
  - reflexivity.
  - discriminate.
Defined.

Lemma update_profile_idempotent_witness :
  snd (fst (run (Run.update_profile 1 (BDict [("username", PStr "alice")]))
                [renamed alice_row "alice"]))
  = [renamed alice_row "alice"]
  /\ (status (mkResponse (profile_updated (renamed alice_row "alice")) 200) = 200 ->
      mkResponse (profile_updated (renamed alice_row "alice")) 200
      = mkResponse (profile_updated (renamed alice_row "alice")) 200).
Proof.
  apply (update_profile_idempotent
           Demo.commit_ok 1 (BDict [("username", PStr "alice")]) [alice_row]
           (mkResponse (profile_updated (renamed alice_row "alice")) 200)
           [renamed alice_row "alice"] [EvQueryId 1; EvCommit]
           (mkResponse (profile_updated (renamed alice_row "alice")) 200)
           _ [EvQueryId 1; EvCommit]);
    reflexivity.
Defined.

Lemma get_profile_after_update_witness :
  exists u',
    body (mkResponse (profile_updated (renamed alice_row "alice")) 200)
    = profile_updated u' /\
    run (get_profile demo_isoformat 1) [renamed alice_row "alice"] =
      (inr (mkResponse (profile_fetched demo_isoformat u') 200),
       [renamed alice_row "alice"], [EvQueryId 1]).
Proof.
  eapply (get_profile_after_update
            Demo.commit_ok demo_isoformat 1
            (BDict [("username", PStr "alice")]) [alice_row]);
    reflexivity.
Defined.
